(** * Twilio message server: a shallow embedding and its checked properties

    The repository holds two variants of one adapter that exposes a single
    tool, [send_message], backed by the Twilio REST API:

    - [src/server.ts], embedded in [Module ServerTs];
    - [src/unnamed/part_000], the variant with start-up checks and logging,
      embedded in [Module Part000].

    Both serialise the tool parameters with the same loop over
    [Object.entries(body)], call [fetch] once and turn the outcome into a
    text block.  They differ in the credential check and in how a failed
    response is decoded.

    Conventions of the embedding.
    - A JavaScript string is represented by the bytes of its UTF-8
      encoding, as a [string]; [Buffer.from(s)] and the UTF-8 steps of
      [URLSearchParams] are then the identity.  (A string with a lone
      surrogate has no such encoding and is not represented.)
    - A JavaScript number is kept abstract ([JsNumber]): the program only
      converts numbers to strings and tests their truthiness.
    - A value is a piece of data: a primitive, an array or a plain object,
      as [JSON.parse] and the schema validation of the host produce them.
    - [JSON.parse], the messages of the [TypeError]s of the platform and
      [fetch] belong to the platform; they are parameters of the
      development ([Runtime], and the argument [fetch]).
    - An asynchronous function is a computation that lists the requests it
      issues and either throws or returns ([M]); a rejected promise is a
      throw.  The body of a response is read in full.
    - Console output is not part of the embedding. *)

From Stdlib Require Import String Ascii List Bool NArith ZArith Lia.
From Stdlib Require Import DecimalString.
Import ListNotations.
Local Open Scope list_scope.
Local Open Scope string_scope.

(* ================================================================== *)
(** ** Strings *)

(** The line feed, written [\n] in the source. *)
Definition LF : string := String (ascii_of_nat 10) EmptyString.

(** [s.split(sep)] for a one-character separator. *)
Fixpoint split_on (sep : ascii) (s : string) : list string :=
  match s with
  | EmptyString => [EmptyString]
  | String c r =>
      if Ascii.eqb c sep then EmptyString :: split_on sep r
      else match split_on sep r with
           | h :: t => String c h :: t
           | [] => [String c EmptyString]
           end
  end.

(** [l.push(x)]. *)
Definition push {A : Type} (l : list A) (x : A) : list A := (l ++ [x])%list.

(** The lines of a text. *)
Definition lines (s : string) : list string := split_on (ascii_of_nat 10) s.

(** Whether byte [c] occurs in [s]. *)
Fixpoint occurs (c : ascii) (s : string) : bool :=
  match s with
  | EmptyString => false
  | String d r => Ascii.eqb d c || occurs c r
  end.

(* ================================================================== *)
(** ** JavaScript values *)

Class JsNumber : Type := {
  number : Type;
  (** [Number::toString], as used by [String(n)] and template literals. *)
  Number_toString : number -> string;
  (** [ToBoolean] on numbers: [false] for [0], [-0] and [NaN]. *)
  Number_toBoolean : number -> bool
}.

#[warnings="-register-all"]
Inductive value `{JsNumber} : Type :=
| VUndefined
| VNull
| VBool (b : bool)
| VNum (n : number)
| VStr (s : string)
| VArr (elems : list value)
| VObj (props : list (string * value)).

(** A thrown value.  Everything thrown while the tool runs is an instance
    of [Error] (made by [new Error], a [TypeError] or [SyntaxError] of the
    platform, or the rejection of [fetch]); the program reads nothing but
    its [message]. *)
Inductive exn : Type :=
| JsError (message : string).

Class Runtime `{JsNumber} : Type := {
  (** [JSON.parse]: the parsed value, or the message of the [SyntaxError]
      it throws. *)
  JSON_parse : string -> string + value;
  (** The message of the [TypeError] thrown by reading property [k] of
      [v], for [v] one of [null] and [undefined]. *)
  TypeError_read : value -> string -> string;
  (** The message of the [TypeError] thrown when an object has no
      primitive value. *)
  TypeError_convert : string
}.

(** Sequencing of steps without effect that may throw. *)
Definition and_then {E A B : Type} (r : E + A) (f : A -> E + B) : E + B :=
  match r with
  | inl e => inl e
  | inr a => f a
  end.

Declare Scope js_scope.
Delimit Scope js_scope with js.
Notation "x <-- r ;; k" := (and_then r (fun x => k))
  (at level 61, r at next level, right associativity) : js_scope.
Local Open Scope js_scope.

(** A loop whose body may throw: [for (const a of l) { b = f(b, a) }]. *)
Fixpoint foldM {E A B : Type} (f : B -> A -> E + B) (l : list A) (b : B)
  : E + B :=
  match l with
  | [] => inr b
  | a :: r => b' <-- f b a ;; foldM f r b'
  end.

Section Values.
Context `{Runtime}.

(** Own property lookup in an object literal or a parsed JSON object. *)
Fixpoint lookup (k : string) (props : list (string * value)) : value :=
  match props with
  | [] => VUndefined
  | (k', v) :: rest => if String.eqb k' k then v else lookup k rest
  end.

(** Whether the object has an own property [k]. *)
Fixpoint has_own (k : string) (props : list (string * value)) : bool :=
  match props with
  | [] => false
  | (k', _) :: rest => String.eqb k' k || has_own k rest
  end.

(** [String(v)] and [`${v}`]: the abstract operation ToString on data.
    An array joins its elements with a comma, [null] and [undefined]
    elements giving the empty string.  An object gives [[object Object]]
    through the inherited [toString]; when it has an own property
    [toString], which in data is never a function, no primitive value is
    found and a [TypeError] is thrown. *)
Fixpoint ToString (v : value) : exn + string :=
  match v with
  | VUndefined => inr "undefined"
  | VNull => inr "null"
  | VBool true => inr "true"
  | VBool false => inr "false"
  | VNum n => inr (Number_toString n)
  | VStr s => inr s
  | VArr elems =>
      parts <-- (fix join_parts (l : list value) : exn + list string :=
                   match l with
                   | [] => inr []
                   | e :: r =>
                       s <-- match e with
                             | VUndefined | VNull => inr ""
                             | _ => ToString e
                             end ;;
                       ss <-- join_parts r ;;
                       inr (s :: ss)
                   end) elems ;;
      inr (String.concat "," parts)
  | VObj props =>
      if has_own "toString" props then inl (JsError TypeError_convert)
      else inr "[object Object]"
  end.

(** ToBoolean: the test made by [if (v)], [!v] and [v || w]. *)
Definition truthy (v : value) : bool :=
  match v with
  | VUndefined | VNull => false
  | VBool b => b
  | VNum n => Number_toBoolean n
  | VStr s => negb (String.eqb s "")
  | VArr _ | VObj _ => true
  end.

(** The values on which [ToString] does not throw. *)
Fixpoint plain (v : value) : bool :=
  match v with
  | VArr elems => forallb plain elems
  | VObj props => negb (has_own "toString" props)
  | _ => true
  end.

End Values.

(* ================================================================== *)
(** ** Base64 ([Buffer.from(s).toString('base64')]) *)

Definition base64_alphabet : string :=
  "ABCDEFGHIJKLMNOPQRSTUVWXYZabcdefghijklmnopqrstuvwxyz0123456789+/".

Definition base64_char (n : N) : ascii :=
  match String.get (N.to_nat (n mod 64)) base64_alphabet with
  | Some c => c
  | None => "="%char
  end.

Fixpoint base64 (s : string) : string :=
  match s with
  | EmptyString => EmptyString
  | String a EmptyString =>
      let n := (N_of_ascii a * 65536)%N in
      String (base64_char (n / 262144))
        (String (base64_char (n / 4096)) "==")
  | String a (String b EmptyString) =>
      let n := (N_of_ascii a * 65536 + N_of_ascii b * 256)%N in
      String (base64_char (n / 262144))
        (String (base64_char (n / 4096))
           (String (base64_char (n / 64)) "="))
  | String a (String b (String c r)) =>
      let n := (N_of_ascii a * 65536 + N_of_ascii b * 256 + N_of_ascii c)%N in
      String (base64_char (n / 262144))
        (String (base64_char (n / 4096))
           (String (base64_char (n / 64))
              (String (base64_char n) (base64 r))))
  end.

(* ================================================================== *)
(** ** [URLSearchParams]

    The list of name/value pairs held by a [URLSearchParams] object, its
    [append] and its [toString] (the application/x-www-form-urlencoded
    serializer of the URL Standard). *)

Definition URLSearchParams : Type := list (string * string).

Definition append (params : URLSearchParams) (name val : string)
  : URLSearchParams :=
  push params (name, val).

Definition hex_digit (n : N) : ascii :=
  match String.get (N.to_nat (n mod 16)) "0123456789ABCDEF" with
  | Some c => c
  | None => "0"%char
  end.

(** Bytes the serializer leaves as they are: ASCII letters and digits and
    [*], [-], [.], [_]. *)
Definition form_unreserved (c : ascii) : bool :=
  let n := N_of_ascii c in
  ((48 <=? n) && (n <=? 57) || (65 <=? n) && (n <=? 90)
   || (97 <=? n) && (n <=? 122)
   || (n =? 42) || (n =? 45) || (n =? 46) || (n =? 95))%N.

Definition form_encode_byte (c : ascii) : string :=
  if Ascii.eqb c " " then "+"
  else if form_unreserved c then String c EmptyString
  else let n := N_of_ascii c in
       String "%" (String (hex_digit (n / 16)) (String (hex_digit n) EmptyString)).

Fixpoint form_encode (s : string) : string :=
  match s with
  | EmptyString => EmptyString
  | String c r => form_encode_byte c ++ form_encode r
  end.

Definition form_field (p : string * string) : string :=
  form_encode (fst p) ++ "=" ++ form_encode (snd p).

(** [params.toString()]. *)
Definition toString (params : URLSearchParams) : string :=
  String.concat "&" (map form_field params).

(** The fields of a serialized body: its non-empty [&]-separated pieces. *)
Definition body_fields (body : string) : list string :=
  filter (fun f => negb (String.eqb f "")) (split_on "&" body).

(** The part of [s] before its first [=] and the part after it; the whole
    of [s] and the empty string when there is none. *)
Fixpoint split_field (s : string) : string * string :=
  match s with
  | EmptyString => (EmptyString, EmptyString)
  | String c r =>
      if Ascii.eqb c "=" then (EmptyString, r)
      else let (n, v) := split_field r in (String c n, v)
  end.

(** The fields of [body] written under the key [name]: those whose name
    part is the encoding of [name]. *)
Definition fields_of_key (name : string) (body : string) : list string :=
  filter (fun f => String.eqb (fst (split_field f)) (form_encode name))
    (body_fields body).

(** *** Decoding

    The repository encodes and never decodes.  The round trip of the spec
    is stated against the application/x-www-form-urlencoded parser of the
    URL Standard, which [new URLSearchParams(text)] and a receiver apply:
    split on [&], skip empty sequences, split each at its first [=], turn
    [+] into a space and percent-decode. *)

(** The value of a hexadecimal digit. *)
Definition hex_value (c : ascii) : option N :=
  let n := N_of_ascii c in
  (if (48 <=? n) && (n <=? 57) then Some (n - 48)
   else if (65 <=? n) && (n <=? 70) then Some (n - 55)
   else if (97 <=? n) && (n <=? 102) then Some (n - 87)
   else None)%N.

(** Modelled from the spec: percent-decoding, a step of the decoder that
    the repository does not have. *)
Fixpoint percent_decode (s : string) : string :=
  match s with
  | EmptyString => EmptyString
  | String c r =>
      if Ascii.eqb c "%" then
        match r with
        | String h (String l r') =>
            match hex_value h, hex_value l with
            | Some a, Some b => String (ascii_of_N (a * 16 + b)) (percent_decode r')
            | _, _ => String c (percent_decode r)
            end
        | _ => String c (percent_decode r)
        end
      else String c (percent_decode r)
  end.

(** Modelled from the spec: [+] read as a space, a step of the decoder
    that the repository does not have. *)
Fixpoint plus_to_space (s : string) : string :=
  match s with
  | EmptyString => EmptyString
  | String c r => String (if Ascii.eqb c "+" then " "%char else c) (plus_to_space r)
  end.

(** Modelled from the spec: the decoding of a name or of a value. *)
Definition form_decode (s : string) : string :=
  percent_decode (plus_to_space s).

(** Modelled from the spec: the decoding of one field. *)
Definition parse_field (s : string) : string * string :=
  let (n, v) := split_field s in (form_decode n, form_decode v).

(** Modelled from the spec: the decoder of the round trip ("encoding then
    decoding a form body with repeated keys"), which the repository does
    not have; it is the parser of the URL Standard. *)
Definition form_parse (s : string) : URLSearchParams :=
  map parse_field (body_fields s).

(** [params.getAll(name)]: the values held under [name], in order; it
    collects a repeated key into a list. *)
Definition getAll (name : string) (params : URLSearchParams) : list string :=
  map snd (filter (fun p => String.eqb (fst p) name) params).

(* ================================================================== *)
(** ** The platform and the effects of a call *)

Inductive http_method : Type := POST | GET.

(** The arguments of a call of [fetch]. *)
Record request : Type := {
  url : string;
  method : http_method;
  headers : list (string * string);
  body : option string
}.

(** What the program reads of a [Response]: [ok] (true exactly for the
    statuses 200 to 299), [status], [statusText] and the text of the
    body, which [response.text()] returns and [response.json()] hands to
    [JSON.parse]. *)
Record response `{JsNumber} : Type := {
  ok : bool;
  status : number;
  statusText : string;
  text : string
}.

(** The result handed back to the host: one text block, and the error
    flag ([false] stands for the field being absent). *)
Record text_block : Type := { block_type : string; block_text : string }.
Record tool_result : Type := { content : list text_block; isError : bool }.

(** A computation lists the requests it has issued, in order, and either
    throws or returns. *)
Definition M (A : Type) : Type := (list request * (exn + A))%type.

Definition ret {A} (a : A) : M A := ([], inr a).

Definition throw {A} (e : exn) : M A := ([], inl e).

Definition bind {A B} (m : M A) (f : A -> M B) : M B :=
  match m with
  | (t, inl e) => (t, inl e)
  | (t, inr a) => let (t', r) := f a in ((t ++ t')%list, r)
  end.

(** [try { m } catch (e) { h e }]. *)
Definition try_catch {A} (m : M A) (h : exn -> M A) : M A :=
  match m with
  | (t, inl e) => let (t', r) := h e in ((t ++ t')%list, r)
  | (t, inr a) => (t, inr a)
  end.

(** A step without effect that may throw. *)
Definition lift {A} (r : exn + A) : M A := ([], r).

Notation "x <- m ;; k" := (bind m (fun x => k))
  (at level 61, m at next level, right associativity) : js_scope.

(* ================================================================== *)
(** ** What the two variants share *)

Definition API_BASE_URL : string := "https://api.twilio.com/2010-04-01".

Section Shared.
Context `{Runtime}.

(** [v.k]: reading a property throws a [TypeError] on [null] and
    [undefined]; an object gives its own property or [undefined].  The
    program reads no property that a primitive, an array or a plain
    object inherits, so those give [undefined]. *)
Definition prop (v : value) (k : string) : exn + value :=
  match v with
  | VUndefined | VNull => inl (JsError (TypeError_read v k))
  | VObj props => inr (lookup k props)
  | _ => inr VUndefined
  end.

(** [JSON.parse(s)], its [SyntaxError] as a thrown value. *)
Definition parse_json (s : string) : exn + value :=
  match JSON_parse s with
  | inl msg => inl (JsError msg)
  | inr v => inr v
  end.

(** One pass of the loop over [Object.entries(body)]. *)
Definition append_entry (formData : URLSearchParams) (entry : string * value)
  : exn + URLSearchParams :=
  let (key, val) := entry in
  match val with
  | VUndefined | VNull => inr formData
  | VArr elems =>
      foldM (fun fd v => s <-- ToString v ;; inr (append fd key s))
        elems formData
  | _ => s <-- ToString val ;; inr (append formData key s)
  end.

(** The [formData] built from [body], given as the list of its entries in
    the order of [Object.entries]. *)
Definition formData (body : list (string * value)) : exn + URLSearchParams :=
  foldM append_entry body [].

(** The result built by the [catch] clause of the tool handler; [error]
    is an instance of [Error], so its [message] is taken. *)
Definition error_result (error : exn) : tool_result :=
  {| content :=
       [ {| block_type := "text";
            block_text :=
              "Error sending message: "
              ++ match error with JsError message => message end |} ];
     isError := true |}.

(** The tool handler's [try { ... } catch (error) { ... }]: whatever the
    body throws becomes an error result. *)
Definition handle (m : M tool_result) : list request * tool_result :=
  match m with
  | (t, inl error) => (t, error_result error)
  | (t, inr r) => (t, r)
  end.

(** The lines pushed into [responseText] for a parsed response. *)
Definition responseText (response : value) : exn + list string :=
  sid <-- prop response "sid" ;;
  sid <-- ToString sid ;;
  status <-- prop response "status" ;;
  status <-- ToString status ;;
  to <-- prop response "to" ;;
  to <-- ToString to ;;
  from <-- prop response "from" ;;
  from <-- ToString from ;;
  let responseText :=
    [ "Message sent successfully!";
      "SID: " ++ sid;
      "Status: " ++ status;
      "To: " ++ to;
      "From: " ++ from ] in
  error_message <-- prop response "error_message" ;;
  if truthy error_message then
    error_message <-- ToString error_message ;;
    inr (push responseText ("Error: " ++ error_message))
  else inr responseText.

(** The value returned by the handler when nothing was thrown. *)
Definition success_result (response : value) : M tool_result :=
  responseText <- lift (responseText response) ;;
  ret {| content :=
           [ {| block_type := "text";
                block_text := String.concat LF responseText |} ];
         isError := false |}.

(** [await fetch(url, init)]: the request is issued, and the platform
    answers with a response or rejects. *)
Definition call (fetch : request -> exn + response) (req : request)
  : M response :=
  ([req], fetch req).

(** The [body] option of the call of [fetch]. *)
Definition form_body (method : http_method) (requestBody : string)
  : option string :=
  match method with POST => Some requestBody | GET => None end.

(** [Buffer.from(`${apiKey}:${apiSecret}`).toString('base64')] on the
    credentials of [config]. *)
Definition authToken (config : value) : exn + string :=
  apiKey <-- prop config "apiKey" ;;
  apiKey <-- ToString apiKey ;;
  apiSecret <-- prop config "apiSecret" ;;
  apiSecret <-- ToString apiSecret ;;
  inr (base64 (apiKey ++ ":" ++ apiSecret)).

(** [`/Accounts/${config.accountSid}/Messages.json`]. *)
Definition messages_endpoint (config : value) : exn + string :=
  accountSid <-- prop config "accountSid" ;;
  accountSid <-- ToString accountSid ;;
  inr ("/Accounts/" ++ accountSid ++ "/Messages.json").

End Shared.

(* ================================================================== *)
(** ** [src/server.ts] *)

Module ServerTs.
Section Server.
Context `{Runtime}.
(** The platform's [fetch]: the response, or what it rejects with. *)
Variable fetch : request -> exn + response.
(** The [config] handed to the server callback. *)
Variable config : value.

Definition twilioRequest (endpoint : string) (method : http_method)
    (body : list (string * value)) : M value :=
  let url := API_BASE_URL ++ endpoint in
  authToken <- lift (authToken config) ;;
  formData <- lift (formData body) ;;
  response <- call fetch
                {| url := url;
                   method := method;
                   headers :=
                     [ ("Authorization", "Basic " ++ authToken);
                       ("Content-Type", "application/x-www-form-urlencoded") ];
                   body := form_body method (toString formData) |} ;;
  if negb (ok response) then
    let errorData :=
      match parse_json (text response) with
      | inr v => v
      | inl _ => VObj []
      end in
    message <- lift (prop errorData "message") ;;
    message <- lift (if truthy message then ToString message
                     else inr ("Twilio API error: "
                               ++ Number_toString (status response)
                               ++ " " ++ statusText response)) ;;
    throw (JsError message)
  else lift (parse_json (text response)).

Definition send_message (params : list (string * value))
  : list request * tool_result :=
  handle
    (endpoint <- lift (messages_endpoint config) ;;
     response <- twilioRequest endpoint POST params ;;
     success_result response).

End Server.
End ServerTs.

(* ================================================================== *)
(** ** [src/unnamed/part_000] *)

Module Part000.
Section Server.
Context `{Runtime}.
(** The platform's [fetch]: the response, or what it rejects with. *)
Variable fetch : request -> exn + response.
(** The [config] handed to the server callback. *)
Variable config : value.

Definition missing_config : exn :=
  JsError "Server configuration for Twilio is missing.".

(** [!config || !config.apiKey || !config.apiSecret], which reads a
    property only when what stands before it is false. *)
Definition credentials_missing : exn + bool :=
  if negb (truthy config) then inr true
  else
    apiKey <-- prop config "apiKey" ;;
    if negb (truthy apiKey) then inr true
    else
      apiSecret <-- prop config "apiSecret" ;;
      inr (negb (truthy apiSecret)).

(** The message computed from the text of a failed response: the text
    itself, replaced by the composed message when the text parses and
    its [message] is truthy; anything thrown on the way is dropped by the
    empty [catch (e)]. *)
Definition errorMessage (errorText : string) : string :=
  let attempt : exn + string :=
    errorData <-- parse_json errorText ;;
    message <-- prop errorData "message" ;;
    if truthy message then
      code <-- prop errorData "code" ;;
      code <-- ToString code ;;
      message <-- ToString message ;;
      more_info <-- prop errorData "more_info" ;;
      more_info <-- ToString more_info ;;
      inr ("Code " ++ code ++ ": " ++ message
           ++ " (More info: " ++ more_info ++ ")")
    else inr errorText in
  match attempt with
  | inr errorMessage => errorMessage
  | inl _ => errorText
  end.

Definition twilioRequest (endpoint : string) (method : http_method)
    (body : list (string * value)) : M value :=
  let url := API_BASE_URL ++ endpoint in
  missing <- lift credentials_missing ;;
  if missing : bool then throw missing_config
  else
    authToken <- lift (authToken config) ;;
    formData <- lift (formData body) ;;
    let requestBody := toString formData in
    try_catch
      (response <- call fetch
                     {| url := url;
                        method := method;
                        headers :=
                          [ ("Authorization", "Basic " ++ authToken);
                            ("Content-Type",
                             "application/x-www-form-urlencoded");
                            ("Accept", "application/json") ];
                        body := form_body method requestBody |} ;;
       if negb (ok response) then
         let errorText := text response in
         throw (JsError (errorMessage errorText))
       else lift (parse_json (text response)))
      (fun error => throw error).

(** [!config || !config.accountSid]. *)
Definition account_missing : exn + bool :=
  if negb (truthy config) then inr true
  else
    accountSid <-- prop config "accountSid" ;;
    inr (negb (truthy accountSid)).

Definition send_message (params : list (string * value))
  : list request * tool_result :=
  handle
    (missing <- lift account_missing ;;
     if missing : bool then throw missing_config
     else
       endpoint <- lift (messages_endpoint config) ;;
       response <- twilioRequest endpoint POST params ;;
       success_result response).

End Server.
End Part000.

(** The two variants, by name. *)
Inductive variant : Type := server_ts | part_000.

Definition twilioRequest `{Runtime} (which : variant)
  : (request -> exn + response) -> value -> string -> http_method
    -> list (string * value) -> M value :=
  match which with
  | server_ts => ServerTs.twilioRequest
  | part_000 => Part000.twilioRequest
  end.

Definition send_message `{Runtime} (which : variant)
  : (request -> exn + response) -> value -> list (string * value)
    -> list request * tool_result :=
  match which with
  | server_ts => ServerTs.send_message
  | part_000 => Part000.send_message
  end.

(* ================================================================== *)
(** ** Notions used in the statements *)

Section Notions.
Context `{Runtime}.

(** [String(v)] where it does not throw (the empty string stands in
    where it does). *)
Definition string_of (v : value) : string :=
  match ToString v with
  | inr s => s
  | inl _ => EmptyString
  end.

(** The pairs that one entry of the body adds to [formData]. *)
Definition entry_fields (entry : string * value) : URLSearchParams :=
  let (key, val) := entry in
  match val with
  | VUndefined | VNull => []
  | VArr elems => map (fun v => (key, string_of v)) elems
  | _ => [(key, string_of val)]
  end.

(** A parameter mapping on which [String] does not throw. *)
Definition plain_body (body : list (string * value)) : bool :=
  forallb (fun entry => plain (snd entry)) body.

(** A configuration object whose account identifier, key and secret are
    truthy and convert to strings: the one on which both variants go on
    to call [fetch]. *)
Definition config_complete (config : value) : bool :=
  match config with
  | VObj props =>
      forallb (fun k => truthy (lookup k props) && plain (lookup k props))
        ["accountSid"; "apiKey"; "apiSecret"]
  | _ => false
  end.

(** A parsed message resource: an object whose [sid], [status], [to] and
    [from] convert to strings. *)
Definition message_resource (response : value) : bool :=
  match response with
  | VObj props =>
      forallb (fun k => plain (lookup k props)) ["sid"; "status"; "to"; "from"]
  | _ => false
  end.

(** The five lines that open every success summary. *)
Definition summary_lines (response : value) : list string :=
  match response with
  | VObj props =>
      [ "Message sent successfully!";
        "SID: " ++ string_of (lookup "sid" props);
        "Status: " ++ string_of (lookup "status" props);
        "To: " ++ string_of (lookup "to" props);
        "From: " ++ string_of (lookup "from" props) ]
  | _ => []
  end.

(** The endpoint and the token computed from a complete configuration. *)
Definition endpoint_of (config : value) : string :=
  match messages_endpoint config with
  | inr endpoint => endpoint
  | inl _ => EmptyString
  end.

Definition token_of (config : value) : string :=
  match authToken config with
  | inr token => token
  | inl _ => EmptyString
  end.

(** The request that [twilioRequest] hands to [fetch]. *)
Definition issued_request (which : variant) (config : value)
    (endpoint : string) (method : http_method)
    (body : list (string * value)) : request :=
  {| url := API_BASE_URL ++ endpoint;
     method := method;
     headers :=
       match which with
       | server_ts =>
           [ ("Authorization", "Basic " ++ token_of config);
             ("Content-Type", "application/x-www-form-urlencoded") ]
       | part_000 =>
           [ ("Authorization", "Basic " ++ token_of config);
             ("Content-Type", "application/x-www-form-urlencoded");
             ("Accept", "application/json") ]
       end;
     body := form_body method (toString (flat_map entry_fields body)) |}.

(** What the handler makes of the outcome of [twilioRequest]. *)
Definition outcome_result (outcome : exn + value) : tool_result :=
  match outcome with
  | inl error => error_result error
  | inr response =>
      match responseText response with
      | inl error => error_result error
      | inr lines =>
          {| content :=
               [ {| block_type := "text";
                    block_text := String.concat LF lines |} ];
             isError := false |}
      end
  end.

(** The secret [k] of a configuration, [undefined] where it is absent:
    the object has no such property, or there is no object at all. *)
Definition secret_of (config : value) (k : string) : value :=
  match config with
  | VObj props => lookup k props
  | _ => VUndefined
  end.

(** An absent secret ([undefined], [null]) or the empty string. *)
Definition blank (v : value) : bool :=
  match v with
  | VUndefined | VNull => true
  | VStr s => String.eqb s ""
  | _ => false
  end.

(** [Code <code>: <message> (More info: <more_info>)] for the fields of a
    parsed error descriptor. *)
Definition composed_message (props : list (string * value)) : string :=
  "Code " ++ string_of (lookup "code" props) ++ ": "
  ++ string_of (lookup "message" props)
  ++ " (More info: " ++ string_of (lookup "more_info" props) ++ ")".

(** [error.message]. *)
Definition message_of (error : exn) : string :=
  match error with JsError message => message end.

(** The success result whose text is made of [lines]. *)
Definition text_result (lines : list string) : tool_result :=
  {| content :=
       [ {| block_type := "text"; block_text := String.concat LF lines |} ];
     isError := false |}.

End Notions.

(** The text of a result's first block. *)
Definition result_text (r : tool_result) : string :=
  match content r with
  | b :: _ => block_text b
  | [] => EmptyString
  end.

(** Whether [s] starts with [p]. *)
Fixpoint starts_with (p s : string) : bool :=
  match p, s with
  | EmptyString, _ => true
  | String a p', String b s' => Ascii.eqb a b && starts_with p' s'
  | _, _ => false
  end.

(* ================================================================== *)
(** ** A reference runtime

    An instance of the platform on which the definitions above run:
    numbers are the integers, and [JSON.parse] is a parser of JSON texts
    whose number literals are integers (a fraction or an exponent is
    reported as a syntax error, which the platform's parser would accept).
    The messages are those of V8.  The general statements below hold for
    every runtime; this one serves to run them on concrete inputs. *)

Module Reference.

#[export] Instance integers : JsNumber := {
  number := Z;
  Number_toString := fun z => NilZero.string_of_int (Z.to_int z);
  Number_toBoolean := fun z => negb (Z.eqb z 0)
}.

Definition is_ws (c : ascii) : bool :=
  let n := N_of_ascii c in ((n =? 32) || (n =? 9) || (n =? 10) || (n =? 13))%N.

Fixpoint skip_ws (s : string) : string :=
  match s with
  | String c r => if is_ws c then skip_ws r else s
  | EmptyString => EmptyString
  end.

(** The double quote. *)
Definition quote : ascii := ascii_of_nat 34.

Definition is_digit (c : ascii) : bool :=
  let n := N_of_ascii c in ((48 <=? n) && (n <=? 57))%N.

(** The digits at the head of [s], as a number, and what follows. *)
Fixpoint digits (acc : Z) (s : string) : Z * string :=
  match s with
  | String c r =>
      if is_digit c
      then digits (acc * 10 + Z.of_N (N_of_ascii c - 48)) r
      else (acc, s)
  | EmptyString => (acc, s)
  end.

Definition starts_fraction (s : string) : bool :=
  match s with
  | String c _ => Ascii.eqb c "." || Ascii.eqb c "e" || Ascii.eqb c "E"
  | EmptyString => false
  end.

(** An integer literal: [0], or a non-zero digit and more digits. *)
Definition parse_nat (s : string) : option (Z * string) :=
  match s with
  | String c r =>
      if Ascii.eqb c "0" then
        match r with
        | String d _ => if is_digit d then None else
                          if starts_fraction r then None else Some (0%Z, r)
        | EmptyString => Some (0%Z, r)
        end
      else if is_digit c then
        let (z, rest) := digits 0 s in
        if starts_fraction rest then None else Some (z, rest)
      else None
  | EmptyString => None
  end.

Definition utf8 (cp : N) : string :=
  (if cp <? 128 then String (ascii_of_N cp) EmptyString
   else if cp <? 2048 then
     String (ascii_of_N (192 + cp / 64))
       (String (ascii_of_N (128 + cp mod 64)) EmptyString)
   else if cp <? 65536 then
     String (ascii_of_N (224 + cp / 4096))
       (String (ascii_of_N (128 + (cp / 64) mod 64))
          (String (ascii_of_N (128 + cp mod 64)) EmptyString))
   else
     String (ascii_of_N (240 + cp / 262144))
       (String (ascii_of_N (128 + (cp / 4096) mod 64))
          (String (ascii_of_N (128 + (cp / 64) mod 64))
             (String (ascii_of_N (128 + cp mod 64)) EmptyString))))%N.

(** Four hexadecimal digits at the head of [s]. *)
Definition hex4 (s : string) : option (N * string) :=
  match s with
  | String a (String b (String c (String d r))) =>
      match hex_value a, hex_value b, hex_value c, hex_value d with
      | Some a, Some b, Some c, Some d =>
          Some (((a * 16 + b) * 16 + c) * 16 + d, r)%N
      | _, _, _, _ => None
      end
  | _ => None
  end.

(** The characters of a string literal after its opening quote, up to
    the closing quote.  An escaped surrogate pair is one code point; a
    lone surrogate, which has no UTF-8 encoding, becomes U+FFFD. *)
Fixpoint parse_chars (fuel : nat) (s : string) : option (string * string) :=
  match fuel with
  | O => None
  | S fuel =>
      match s with
      | EmptyString => None
      | String c r =>
          if Ascii.eqb c quote then Some (EmptyString, r)
          else if (N_of_ascii c <? 32)%N then None
          else if Ascii.eqb c "\" then
            match r with
            | String e r' =>
                let simple (b : N) :=
                  match parse_chars fuel r' with
                  | Some (t, rest) => Some (String (ascii_of_N b) t, rest)
                  | None => None
                  end in
                if Ascii.eqb e quote then simple 34%N
                else if Ascii.eqb e "\" then simple 92%N
                else if Ascii.eqb e "/" then simple 47%N
                else if Ascii.eqb e "b" then simple 8%N
                else if Ascii.eqb e "f" then simple 12%N
                else if Ascii.eqb e "n" then simple 10%N
                else if Ascii.eqb e "r" then simple 13%N
                else if Ascii.eqb e "t" then simple 9%N
                else if Ascii.eqb e "u" then
                  match hex4 r' with
                  | Some (u, r1) =>
                      let pair :=
                        if ((55296 <=? u) && (u <=? 56319))%N then
                          match r1 with
                          | String b1 (String b2 r2) =>
                              if Ascii.eqb b1 "\" && Ascii.eqb b2 "u" then
                                match hex4 r2 with
                                | Some (l, r3) =>
                                    if ((56320 <=? l) && (l <=? 57343))%N
                                    then Some (65536 + (u - 55296) * 1024
                                               + (l - 56320), r3)%N
                                    else None
                                | None => None
                                end
                              else None
                          | _ => None
                          end
                        else None in
                      let (cp, r4) :=
                        match pair with
                        | Some p => p
                        | None =>
                            if ((55296 <=? u) && (u <=? 57343))%N
                            then (65533%N, r1) else (u, r1)
                        end in
                      match parse_chars fuel r4 with
                      | Some (t, rest) => Some (utf8 cp ++ t, rest)
                      | None => None
                      end
                  | None => None
                  end
                else None
            | EmptyString => None
            end
          else
            match parse_chars fuel r with
            | Some (t, rest) => Some (String c t, rest)
            | None => None
            end
      end
  end.

(** Whether [s] starts with [p], and what follows. *)
Fixpoint strip_prefix (p s : string) : option string :=
  match p, s with
  | EmptyString, _ => Some s
  | String a p', String b s' => if Ascii.eqb a b then strip_prefix p' s' else None
  | _, _ => None
  end.

(** Defining a property: an existing key keeps its place and takes the
    new value. *)
Fixpoint set_prop (k : string) (v : value) (props : list (string * value))
  : list (string * value) :=
  match props with
  | [] => [(k, v)]
  | (k', v') :: rest =>
      if String.eqb k' k then (k', v) :: rest
      else (k', v') :: set_prop k v rest
  end.

Fixpoint parse_value (fuel : nat) (s : string) : option (value * string) :=
  match fuel with
  | O => None
  | S fuel =>
      match skip_ws s with
      | EmptyString => None
      | String c r =>
          if Ascii.eqb c "{" then
            match skip_ws r with
            | String d r' =>
                if Ascii.eqb d "}" then Some (VObj [], r')
                else parse_members fuel [] (skip_ws r)
            | EmptyString => None
            end
          else if Ascii.eqb c "[" then
            match skip_ws r with
            | String d r' =>
                if Ascii.eqb d "]" then Some (VArr [], r')
                else parse_elements fuel [] (skip_ws r)
            | EmptyString => None
            end
          else if Ascii.eqb c quote then
            match parse_chars (String.length r) r with
            | Some (t, rest) => Some (VStr t, rest)
            | None => None
            end
          else if Ascii.eqb c "-" then
            match parse_nat r with
            | Some (z, rest) => Some (VNum (- z)%Z, rest)
            | None => None
            end
          else if is_digit c then
            match parse_nat (String c r) with
            | Some (z, rest) => Some (VNum z, rest)
            | None => None
            end
          else
            match strip_prefix "true" (String c r),
                  strip_prefix "false" (String c r),
                  strip_prefix "null" (String c r) with
            | Some rest, _, _ => Some (VBool true, rest)
            | _, Some rest, _ => Some (VBool false, rest)
            | _, _, Some rest => Some (VNull, rest)
            | _, _, _ => None
            end
      end
  end

(** The elements of an array after [acc], up to the closing bracket. *)
with parse_elements (fuel : nat) (acc : list value) (s : string)
  : option (value * string) :=
  match fuel with
  | O => None
  | S fuel =>
      match parse_value fuel s with
      | Some (v, rest) =>
          match skip_ws rest with
          | String c r =>
              if Ascii.eqb c "," then parse_elements fuel (push acc v) r
              else if Ascii.eqb c "]" then Some (VArr (push acc v), r)
              else None
          | EmptyString => None
          end
      | None => None
      end
  end

(** The members of an object after [acc], up to the closing brace. *)
with parse_members (fuel : nat) (acc : list (string * value)) (s : string)
  : option (value * string) :=
  match fuel with
  | O => None
  | S fuel =>
      match skip_ws s with
      | String q r =>
          if Ascii.eqb q quote then
            match parse_chars (String.length r) r with
            | Some (k, rest) =>
                match skip_ws rest with
                | String c r1 =>
                    if Ascii.eqb c ":" then
                      match parse_value fuel r1 with
                      | Some (v, rest') =>
                          match skip_ws rest' with
                          | String d r2 =>
                              if Ascii.eqb d "," then
                                parse_members fuel (set_prop k v acc) r2
                              else if Ascii.eqb d "}" then
                                Some (VObj (set_prop k v acc), r2)
                              else None
                          | EmptyString => None
                          end
                      | None => None
                      end
                    else None
                | EmptyString => None
                end
            | None => None
            end
          else None
      | EmptyString => None
      end
  end.

Definition syntax_error : string := "Unexpected token in JSON".

(** A JSON text written with a backquote for each double quote. *)
Fixpoint json (s : string) : string :=
  match s with
  | EmptyString => EmptyString
  | String c r => String (if Ascii.eqb c "`" then quote else c) (json r)
  end.

Definition parse (s : string) : string + value :=
  match parse_value (2 * String.length s + 2) s with
  | Some (v, rest) =>
      match skip_ws rest with
      | EmptyString => inr v
      | String _ _ => inl syntax_error
      end
  | None => inl syntax_error
  end.

#[export] Instance runtime : Runtime := {
  JSON_parse := parse;
  TypeError_read := fun v k =>
    "Cannot read properties of "
    ++ match v with VNull => "null" | _ => "undefined" end
    ++ " (reading '" ++ k ++ "')";
  TypeError_convert := "Cannot convert object to primitive value"
}.

End Reference.

(* ================================================================== *)
(** ** Sample inputs, on the reference runtime *)

Module Sample.
Import Reference.

Definition config : value :=
  VObj [ ("accountSid", VStr "AC1"); ("apiKey", VStr "SK1");
         ("apiSecret", VStr "secret") ].

(** A configuration whose key is the empty string. *)
Definition config_empty_key : value :=
  VObj [ ("accountSid", VStr "AC1"); ("apiKey", VStr "");
         ("apiSecret", VStr "secret") ].

Definition params : list (string * value) :=
  [ ("To", VStr "+15551234567");
    ("From", VStr "+15559876543");
    ("Body", VStr "Hi there & you");
    ("MediaUrl", VArr [VStr "https://a.example/1.png";
                       VStr "https://a.example/2.png"]);
    ("StatusCallback", VUndefined);
    ("ValidityPeriod", VNum 60%Z) ].

Definition endpoint : string := "/Accounts/AC1/Messages.json".

(** The message resource of the spec's examples. *)
Definition queued : response :=
  {| ok := true; status := 201%Z; statusText := "Created";
     text := json "{`sid`:`SM1`,`status`:`queued`,`to`:`+15551234567`,`from`:`+15559876543`}" |}.

Definition queued_props : list (string * value) :=
  [ ("sid", VStr "SM1"); ("status", VStr "queued");
    ("to", VStr "+15551234567"); ("from", VStr "+15559876543") ].

(** The same resource with an [error_message]. *)
Definition rejected : response :=
  {| ok := true; status := 201%Z; statusText := "Created";
     text := json "{`sid`:`SM1`,`status`:`queued`,`to`:`+15551234567`,`from`:`+15559876543`,`error_message`:`Carrier rejected`}" |}.

Definition rejected_props : list (string * value) :=
  (queued_props ++ [ ("error_message", VStr "Carrier rejected") ])%list.

(** The same resource with an empty [error_message]. *)
Definition empty_error : response :=
  {| ok := true; status := 201%Z; statusText := "Created";
     text := json "{`sid`:`SM1`,`status`:`queued`,`to`:`+15551234567`,`from`:`+15559876543`,`error_message`:``}" |}.

Definition empty_error_props : list (string * value) :=
  (queued_props ++ [ ("error_message", VStr "") ])%list.

(** The error descriptor of the spec's example. *)
Definition invalid_to : response :=
  {| ok := false; status := 400%Z; statusText := "Bad Request";
     text := json "{`code`:21211,`message`:`Invalid 'To' Phone Number`,`more_info`:`https://...`,`status`:400}" |}.

Definition invalid_to_props : list (string * value) :=
  [ ("code", VNum 21211%Z); ("message", VStr "Invalid 'To' Phone Number");
    ("more_info", VStr "https://..."); ("status", VNum 400%Z) ].

(** An error descriptor whose [message] is present and empty. *)
Definition empty_message : response :=
  {| ok := false; status := 400%Z; statusText := "Bad Request";
     text := json "{`code`:21211,`message`:``,`more_info`:`https://...`,`status`:400}" |}.

Definition empty_message_props : list (string * value) :=
  [ ("code", VNum 21211%Z); ("message", VStr "");
    ("more_info", VStr "https://..."); ("status", VNum 400%Z) ].

(** A failed response whose body is no JSON. *)
Definition server_error : response :=
  {| ok := false; status := 500%Z; statusText := "Internal Server Error";
     text := "Internal Server Error" |}.

(** A failed response whose body is an HTML page of three lines. *)
Definition bad_gateway : response :=
  {| ok := false; status := 502%Z; statusText := "Bad Gateway";
     text := "<html>" ++ LF ++ "<body>Bad Gateway</body>" ++ LF ++ "</html>" |}.

(** A successful response whose body is no JSON. *)
Definition malformed : response :=
  {| ok := true; status := 200%Z; statusText := "OK"; text := "<html>" |}.

(** A [fetch] that answers every request with [r]. *)
Definition answering (r : response) : request -> exn + response :=
  fun _ => inr r.

(** The result of the tool on the sample parameters when [fetch] answers
    with [r]. *)
Definition outcome (which : variant) (r : response) : tool_result :=
  snd (send_message which (answering r) config params).

(** What [twilioRequest] returns or throws when [fetch] answers with [r]. *)
Definition transport (which : variant) (r : response) : exn + value :=
  snd (twilioRequest which (answering r) config endpoint POST params).

End Sample.

(* ================================================================== *)
(** ** Further notions used in the statements *)

(** The request that [twilioRequest] builds from a token and the pairs of
    [formData]. *)
Definition built_request (which : variant) (endpoint : string)
    (method : http_method) (token : string) (fd : URLSearchParams)
  : request :=
  {| url := API_BASE_URL ++ endpoint;
     method := method;
     headers :=
       match which with
       | server_ts =>
           [ ("Authorization", "Basic " ++ token);
             ("Content-Type", "application/x-www-form-urlencoded") ]
       | part_000 =>
           [ ("Authorization", "Basic " ++ token);
             ("Content-Type", "application/x-www-form-urlencoded");
             ("Accept", "application/json") ]
       end;
     body := form_body method (toString fd) |}.

(** [v.k] for a value [v] other than [null] and [undefined]: the own
    property of an object, [undefined] on a primitive or an array. *)
Definition member `{JsNumber} (v : value) (k : string) : value :=
  match v with
  | VObj props => lookup k props
  | _ => VUndefined
  end.

(** The place of a character in the Base64 alphabet (64 when it has
    none). *)
Fixpoint index_in (c : ascii) (s : string) (i : N) : N :=
  match s with
  | EmptyString => i
  | String d r => if Ascii.eqb d c then i else index_in c r (i + 1)%N
  end.

Definition base64_index (c : ascii) : N := index_in c base64_alphabet 0.

(** The decoding of Base64, group of four characters by group.  The
    repository never decodes; this inverse serves to show that the token
    loses nothing of what it encodes. *)
Fixpoint base64_decode (fuel : nat) (s : string) : string :=
  match fuel with
  | O => EmptyString
  | S fuel =>
      match s with
      | String c1 (String c2 (String c3 (String c4 r))) =>
          let high := (base64_index c1 * 262144 + base64_index c2 * 4096)%N in
          if Ascii.eqb c3 "=" then
            String (ascii_of_N (high / 65536)) EmptyString
          else
            let mid := (high + base64_index c3 * 64)%N in
            if Ascii.eqb c4 "=" then
              String (ascii_of_N (mid / 65536))
                (String (ascii_of_N ((mid / 256) mod 256)) EmptyString)
            else
              let n := (mid + base64_index c4)%N in
              String (ascii_of_N (n / 65536))
                (String (ascii_of_N ((n / 256) mod 256))
                   (String (ascii_of_N (n mod 256)) (base64_decode fuel r)))
      | _ => EmptyString
      end
  end.

(** The properties of a response that the handler reads. *)
Definition summary_fields : list string :=
  ["sid"; "status"; "to"; "from"; "error_message"].

(* ================================================================== *)
(** ** The input schema

    The patterns that [sendMessageSchema] puts on the two identifiers,
    [/^MG[0-9a-fA-F]{32}$/] and [/^HX[0-9a-fA-F]{32}$/], as the tests that
    [regex.test] makes: the prefix, then exactly thirty-two hexadecimal
    digits, then the end of the string. *)

(** The class [[0-9a-fA-F]]. *)
Definition is_hex_digit (c : ascii) : bool :=
  let n := N_of_ascii c in
  ((48 <=? n) && (n <=? 57) || (97 <=? n) && (n <=? 102)
   || (65 <=? n) && (n <=? 70))%N.

Fixpoint all_hex_digits (s : string) : bool :=
  match s with
  | EmptyString => true
  | String c r => is_hex_digit c && all_hex_digits r
  end.

(** What follows [p] in [s], when [s] starts with [p]. *)
Fixpoint after_prefix (p s : string) : option string :=
  match p, s with
  | EmptyString, _ => Some s
  | String a p', String b s' =>
      if Ascii.eqb a b then after_prefix p' s' else None
  | _, _ => None
  end.

(** [/^<prefix>[0-9a-fA-F]{32}$/.test(s)]. *)
Definition sid_pattern (prefix s : string) : bool :=
  match after_prefix prefix s with
  | Some digits => Nat.eqb (String.length digits) 32 && all_hex_digits digits
  | None => false
  end.

Definition MessagingServiceSid_pattern : string -> bool := sid_pattern "MG".

Definition ContentSid_pattern : string -> bool := sid_pattern "HX".

(* ================================================================== *)
(** ** Further sample inputs, on the reference runtime *)

Module Edge.
Import Reference.

(** A configuration without account identifier. *)
Definition config_without_account : value :=
  VObj [ ("apiKey", VStr "SK1"); ("apiSecret", VStr "secret") ].

(** A successful response whose body is the empty array. *)
Definition empty_array : response :=
  {| ok := true; status := 200%Z; statusText := "OK"; text := "[]" |}.

(** A successful response whose body is [null]. *)
Definition null_body : response :=
  {| ok := true; status := 200%Z; statusText := "OK"; text := "null" |}.

(** A failed response whose body is [null]. *)
Definition failed_null : response :=
  {| ok := false; status := 503%Z; statusText := "Service Unavailable";
     text := "null" |}.

(** The sample resource with an [error_code] and a [price]. *)
Definition queued_with_code : list (string * value) :=
  (Sample.queued_props
   ++ [ ("error_code", VNum 30007%Z); ("price", VStr "-0.0075") ])%list.

(** Parameters one of which is an object with an own [toString]. *)
Definition unconvertible : list (string * value) :=
  [ ("To", VStr "+15551234567");
    ("Body", VObj [ ("toString", VNull) ]) ].

(** A [fetch] that rejects every request with [e]. *)
Definition rejecting (e : exn) : request -> exn + response :=
  fun _ => inl e.

Definition sample_sid : string := "MG0123456789abcdefABCDEF0123456789".

End Edge.

(* ================================================================== *)
(** ** Facts about strings *)

Lemma occurs_app (c : ascii) (a b : string) :
  occurs c (a ++ b) = occurs c a || occurs c b.
Proof.
  induction a as [|d a IH]; simpl; [reflexivity|].
  now rewrite IH, orb_assoc.
Qed.

Lemma split_on_absent (sep : ascii) (s : string) :
  occurs sep s = false -> split_on sep s = [s].
Proof.
  induction s as [|c s IH]; simpl; intros Hs; [reflexivity|].
  apply orb_false_iff in Hs as [Hc Hs].
  rewrite Hc, (IH Hs). reflexivity.
Qed.

Lemma split_on_app (sep : ascii) (a b : string) :
  occurs sep a = false ->
  split_on sep (a ++ String sep b) = a :: split_on sep b.
Proof.
  induction a as [|c a IH]; simpl; intros Ha.
  - now rewrite Ascii.eqb_refl.
  - apply orb_false_iff in Ha as [Hc Ha].
    rewrite Hc, (IH Ha). reflexivity.
Qed.

(** Splitting a joined list gives the list back when no piece holds the
    separator. *)
Lemma split_on_concat (sep : ascii) (l : list string) :
  l <> [] ->
  Forall (fun f => occurs sep f = false) l ->
  split_on sep (String.concat (String sep EmptyString) l) = l.
Proof.
  induction l as [|a l IH]; intros Hne Hall; [congruence|].
  inversion Hall as [|? ? Ha Hl]; subst.
  destruct l as [|b l].
  - simpl. now apply split_on_absent.
  - change (String.concat (String sep EmptyString) (a :: b :: l))
      with (a ++ String sep (String.concat (String sep EmptyString) (b :: l))).
    rewrite split_on_app by assumption.
    rewrite IH by (assumption || discriminate). reflexivity.
Qed.

Lemma split_field_app (a b : string) :
  occurs "=" a = false ->
  split_field (a ++ String "=" b) = (a, b).
Proof.
  induction a as [|c a IH]; simpl; intros Ha; [reflexivity|].
  apply orb_false_iff in Ha as [Hc Ha].
  rewrite Hc, (IH Ha). reflexivity.
Qed.

Lemma lines_absent (s : string) :
  occurs (ascii_of_nat 10) s = false -> lines s = [s].
Proof. apply split_on_absent. Qed.

Lemma starts_with_app (p s : string) : starts_with p (p ++ s) = true.
Proof.
  induction p as [|c p IH]; simpl; [reflexivity|].
  now rewrite Ascii.eqb_refl, IH.
Qed.

(* ================================================================== *)
(** ** Facts about the form encoding *)

Lemma plus_to_space_app (a b : string) :
  plus_to_space (a ++ b) = plus_to_space a ++ plus_to_space b.
Proof.
  induction a as [|c a IH]; simpl; [reflexivity|]. now rewrite IH.
Qed.

(** Decoding undoes the encoding of one byte, whatever follows. *)
Lemma decode_encode_byte (c : ascii) (rest : string) :
  percent_decode (plus_to_space (form_encode_byte c) ++ rest)
  = String c (percent_decode rest).
Proof.
  destruct c as [[] [] [] [] [] [] [] []]; reflexivity.
Qed.

Lemma form_decode_encode (s : string) : form_decode (form_encode s) = s.
Proof.
  unfold form_decode.
  induction s as [|c s IH]; simpl; [reflexivity|].
  rewrite plus_to_space_app, decode_encode_byte, IH. reflexivity.
Qed.

Lemma form_encode_inj (a b : string) :
  form_encode a = form_encode b -> a = b.
Proof.
  intros Heq. rewrite <- (form_decode_encode a), <- (form_decode_encode b).
  now rewrite Heq.
Qed.

Lemma form_encode_eqb (a b : string) :
  String.eqb (form_encode a) (form_encode b) = String.eqb a b.
Proof.
  destruct (String.eqb_spec a b) as [->|Hne].
  - apply String.eqb_refl.
  - apply String.eqb_neq. intros Heq. now apply Hne, form_encode_inj.
Qed.

(** The encoding of a byte holds neither [&] nor [=]. *)
Lemma form_encode_byte_clean (c : ascii) :
  occurs "&" (form_encode_byte c) = false
  /\ occurs "=" (form_encode_byte c) = false.
Proof.
  destruct c as [[] [] [] [] [] [] [] []]; split; reflexivity.
Qed.

Lemma form_encode_clean (s : string) :
  occurs "&" (form_encode s) = false /\ occurs "=" (form_encode s) = false.
Proof.
  induction s as [|c s [IH1 IH2]]; simpl; [split; reflexivity|].
  rewrite !occurs_app, IH1, IH2.
  destruct (form_encode_byte_clean c) as [-> ->]. split; reflexivity.
Qed.

Lemma form_field_no_amp (p : string * string) :
  occurs "&" (form_field p) = false.
Proof.
  unfold form_field. rewrite !occurs_app.
  destruct (form_encode_clean (fst p)) as [-> _].
  destruct (form_encode_clean (snd p)) as [-> _]. reflexivity.
Qed.

Lemma form_field_nonempty (p : string * string) :
  negb (String.eqb (form_field p) "") = true.
Proof.
  unfold form_field.
  destruct (form_encode (fst p)); reflexivity.
Qed.

Lemma split_field_form_field (p : string * string) :
  split_field (form_field p) = (form_encode (fst p), form_encode (snd p)).
Proof.
  unfold form_field. apply split_field_app, form_encode_clean.
Qed.

(** The fields of a serialized [URLSearchParams] are its pairs, encoded. *)
Lemma body_fields_toString (params : URLSearchParams) :
  body_fields (toString params) = map form_field params.
Proof.
  unfold body_fields, toString.
  destruct params as [|p params]; [reflexivity|].
  rewrite split_on_concat.
  - apply forallb_filter_id. apply forallb_forall. intros f Hf.
    apply in_map_iff in Hf as [q [<- _]]. apply form_field_nonempty.
  - discriminate.
  - apply Forall_forall. intros f Hf.
    apply in_map_iff in Hf as [q [<- _]]. apply form_field_no_amp.
Qed.

Lemma fields_of_key_toString (name : string) (params : URLSearchParams) :
  fields_of_key name (toString params)
  = map form_field (filter (fun p => String.eqb (fst p) name) params).
Proof.
  unfold fields_of_key. rewrite body_fields_toString.
  induction params as [|p params IH]; simpl; [reflexivity|].
  rewrite split_field_form_field. simpl. rewrite form_encode_eqb, IH.
  destruct (String.eqb (fst p) name); reflexivity.
Qed.

Lemma parse_field_form_field (p : string * string) :
  parse_field (form_field p) = p.
Proof.
  unfold parse_field. rewrite split_field_form_field.
  rewrite !form_decode_encode. now destruct p.
Qed.

(** Parsing a serialized [URLSearchParams] gives its pairs back. *)
Lemma form_parse_toString (params : URLSearchParams) :
  form_parse (toString params) = params.
Proof.
  unfold form_parse. rewrite body_fields_toString, map_map.
  rewrite <- (map_id params) at 2.
  apply map_ext, parse_field_form_field.
Qed.

(* ================================================================== *)
(** ** Facts about values and the serialization loop *)

Section Value_facts.
Context `{Runtime}.

(** [String] does not throw on a plain value. *)
Lemma plain_ToString : forall v, plain v = true -> exists s, ToString v = inr s.
Proof.
  fix IH 1.
  intros [ | | [|] | n | s | elems | props]; simpl; intros Hp;
    try (eexists; reflexivity).
  - assert (Hparts : exists ss,
               (fix join_parts (l : list value) : exn + list string :=
                  match l with
                  | [] => inr []
                  | e :: r =>
                      s <-- match e with
                            | VUndefined | VNull => inr ""
                            | _ => ToString e
                            end ;;
                      ss <-- join_parts r ;;
                      inr (s :: ss)
                  end) elems = inr ss).
    { induction elems as [|e elems IHelems]; [eexists; reflexivity|].
      simpl in Hp. apply andb_true_iff in Hp as [He Hr].
      destruct (IHelems Hr) as [ss Hss]. rewrite Hss.
      destruct (IH e He) as [s Hs].
      destruct e; simpl in *; try rewrite Hs; simpl; eexists; reflexivity. }
    destruct Hparts as [ss ->]. eexists; reflexivity.
  - destruct (has_own "toString" props); [discriminate|].
    eexists; reflexivity.
Qed.

Lemma ToString_plain (v : value) :
  plain v = true -> ToString v = inr (string_of v).
Proof.
  intros Hp. unfold string_of.
  destruct (plain_ToString v Hp) as [s ->]. reflexivity.
Qed.

(** The inner loop of [append_entry], over the elements of a list. *)
Lemma foldM_elements (key : string) (elems : list value)
    (acc : URLSearchParams) :
  forallb plain elems = true ->
  foldM (fun fd v => s <-- ToString v ;; inr (append fd key s)) elems acc
  = inr (acc ++ map (fun v => (key, string_of v)) elems)%list.
Proof.
  revert acc.
  induction elems as [|e elems IH]; simpl; intros acc Hp.
  - now rewrite app_nil_r.
  - apply andb_true_iff in Hp as [He Hr].
    rewrite (ToString_plain e He). simpl. rewrite (IH _ Hr).
    unfold append, push. now rewrite <- app_assoc.
Qed.

Lemma append_entry_plain (acc : URLSearchParams) (entry : string * value) :
  plain (snd entry) = true ->
  append_entry acc entry = inr (acc ++ entry_fields entry)%list.
Proof.
  destruct entry as [key val]. simpl. intros Hp.
  destruct val;
    try (simpl; now rewrite app_nil_r);
    try (now apply foldM_elements);
    unfold append_entry; rewrite ToString_plain by assumption; reflexivity.
Qed.

Lemma foldM_append_entry (body : list (string * value))
    (acc : URLSearchParams) :
  plain_body body = true ->
  foldM append_entry body acc = inr (acc ++ flat_map entry_fields body)%list.
Proof.
  revert acc.
  induction body as [|entry body IH]; simpl; intros acc Hp.
  - now rewrite app_nil_r.
  - apply andb_true_iff in Hp as [He Hr].
    rewrite (append_entry_plain acc entry He). simpl.
    rewrite (IH _ Hr). now rewrite <- app_assoc.
Qed.

(** On a plain body the loop does not throw, and [formData] holds the
    fields of the entries, entry after entry. *)
Lemma formData_plain (body : list (string * value)) :
  plain_body body = true ->
  formData body = inr (flat_map entry_fields body).
Proof. intros Hp. unfold formData. now rewrite foldM_append_entry. Qed.

Lemma filter_entry_fields_same (key : string) (v : value) :
  filter (fun p => String.eqb (fst p) key) (entry_fields (key, v))
  = entry_fields (key, v).
Proof.
  apply forallb_filter_id, forallb_forall. intros p Hp.
  assert (Hfst : fst p = key).
  { destruct v; simpl in Hp;
      try contradiction;
      try (destruct Hp as [<-|[]]; reflexivity).
    apply in_map_iff in Hp as [e [<- _]]. reflexivity. }
  rewrite Hfst. apply String.eqb_refl.
Qed.

Lemma filter_entry_fields_other (key k : string) (v : value) :
  k <> key ->
  filter (fun p => String.eqb (fst p) key) (entry_fields (k, v)) = [].
Proof.
  intros Hne.
  assert (Hk : String.eqb k key = false) by now apply String.eqb_neq.
  destruct v; simpl; try rewrite Hk; try reflexivity.
  induction elems as [|e elems IH]; simpl; [reflexivity|].
  now rewrite Hk.
Qed.

Lemma filter_fields_absent (key : string) (body : list (string * value)) :
  ~ In key (map fst body) ->
  filter (fun p => String.eqb (fst p) key) (flat_map entry_fields body) = [].
Proof.
  induction body as [|[k v] body IH]; cbn [flat_map map fst]; intros Hnot;
    [reflexivity|].
  rewrite filter_app, filter_entry_fields_other, IH; auto;
    intros Hin; apply Hnot; [now right | now left].
Qed.

(** With each key once in the body, the fields under [key] are those of
    its entry. *)
Lemma filter_fields_entry (key : string) (v : value)
    (body : list (string * value)) :
  NoDup (map fst body) ->
  In (key, v) body ->
  filter (fun p => String.eqb (fst p) key) (flat_map entry_fields body)
  = entry_fields (key, v).
Proof.
  induction body as [|[k w] body IH]; cbn [flat_map map fst];
    intros Hnd Hin; [contradiction|].
  inversion Hnd as [|? ? Hk Hrest]; subst.
  rewrite filter_app.
  destruct Hin as [Heq|Hin].
  - inversion Heq; subst.
    rewrite filter_entry_fields_same, filter_fields_absent by assumption.
    apply app_nil_r.
  - assert (Hne : k <> key).
    { intros ->. apply Hk. apply in_map_iff. now exists (key, v). }
    rewrite filter_entry_fields_other by assumption.
    now apply IH.
Qed.

End Value_facts.

(* ================================================================== *)
(** ** Facts about the two variants *)

Section Monad_facts.
Context `{JsNumber} {A B : Type}.

Lemma bind_lift_inr (a : A) (f : A -> M B) : bind (lift (inr a)) f = f a.
Proof. unfold bind, lift. now destruct (f a). Qed.

Lemma bind_lift_inl (e : exn) (f : A -> M B) :
  bind (lift (inl e)) f = throw e.
Proof. reflexivity. Qed.

Lemma bind_throw (e : exn) (f : A -> M B) : bind (throw e) f = throw e.
Proof. reflexivity. Qed.

Lemma bind_ret (a : A) (f : A -> M B) : bind (ret a) f = f a.
Proof. unfold bind, ret. now destruct (f a). Qed.

(** The issued request stays in front of whatever follows. *)
Lemma bind_call (fetch : request -> exn + response) (req : request)
    (f : response -> M B) :
  bind (call fetch req) f
  = match fetch req with
    | inl e => ([req], inl e)
    | inr response => (req :: fst (f response), snd (f response))
    end.
Proof.
  unfold bind, call. destruct (fetch req) as [e|response]; [reflexivity|].
  now destruct (f response).
Qed.

Lemma try_catch_rethrow (m : M A) : try_catch m (fun error => throw error) = m.
Proof.
  destruct m as [t [e|a]]; simpl; [|reflexivity]. now rewrite app_nil_r.
Qed.

End Monad_facts.

Section Pipeline_facts.
Context `{Runtime}.

(** What a complete configuration gives to both variants. *)
Lemma config_complete_facts (config : value) :
  config_complete config = true ->
  messages_endpoint config = inr (endpoint_of config)
  /\ authToken config = inr (token_of config)
  /\ Part000.credentials_missing config = inr false
  /\ Part000.account_missing config = inr false.
Proof.
  destruct config as [ | | | | | |props]; try discriminate.
  unfold config_complete, forallb. intros Hc.
  repeat (apply andb_true_iff in Hc as [? Hc]).
  repeat match goal with
         | Hx : _ && _ = true |- _ => apply andb_true_iff in Hx as [? ?]
         end.
  unfold endpoint_of, token_of, messages_endpoint, authToken,
    Part000.credentials_missing, Part000.account_missing, prop.
  cbn [and_then truthy negb].
  repeat match goal with
         | Hx : plain ?v = true |- _ =>
             rewrite (ToString_plain v Hx); clear Hx
         | Hx : truthy ?v = true |- _ => rewrite Hx; clear Hx
         end.
  cbn. repeat split; reflexivity.
Qed.

(** With a complete configuration and a plain body, [twilioRequest]
    issues one request and classifies what [fetch] answers. *)
Lemma ServerTs_twilioRequest_run (fetch : request -> exn + response)
    (config : value) (endpoint : string)
    (method : http_method) (body : list (string * value)) :
  config_complete config = true ->
  plain_body body = true ->
  ServerTs.twilioRequest fetch config endpoint method body
  = bind (call fetch (issued_request server_ts config endpoint method body))
      (fun response =>
         if negb (ok response) then
           let errorData :=
             match parse_json (text response) with
             | inr v => v
             | inl _ => VObj []
             end in
           message <- lift (prop errorData "message") ;;
           message <- lift (if truthy message then ToString message
                            else inr ("Twilio API error: "
                                      ++ Number_toString (status response)
                                      ++ " " ++ statusText response)) ;;
           throw (JsError message)
         else lift (parse_json (text response))).
Proof.
  intros Hc Hb. destruct (config_complete_facts config Hc) as (_ & Ht & _).
  unfold ServerTs.twilioRequest.
  rewrite Ht, (formData_plain body Hb), !bind_lift_inr. reflexivity.
Qed.

Lemma Part000_twilioRequest_run (fetch : request -> exn + response)
    (config : value) (endpoint : string)
    (method : http_method) (body : list (string * value)) :
  config_complete config = true ->
  plain_body body = true ->
  Part000.twilioRequest fetch config endpoint method body
  = bind (call fetch (issued_request part_000 config endpoint method body))
      (fun response =>
         if negb (ok response)
         then throw (JsError (Part000.errorMessage (text response)))
         else lift (parse_json (text response))).
Proof.
  intros Hc Hb.
  destruct (config_complete_facts config Hc) as (_ & Ht & Hm & _).
  unfold Part000.twilioRequest.
  rewrite Hm, Ht, (formData_plain body Hb), !bind_lift_inr.
  rewrite try_catch_rethrow. reflexivity.
Qed.

(** The handler is [twilioRequest] followed by the formatter. *)
Lemma send_message_run (fetch : request -> exn + response)
    (which : variant) (config : value)
    (params : list (string * value)) :
  config_complete config = true ->
  send_message which fetch config params
  = (fst (twilioRequest which fetch config (endpoint_of config) POST params),
     outcome_result
       (snd (twilioRequest which fetch config (endpoint_of config) POST
               params))).
Proof.
  intros Hc.
  destruct (config_complete_facts config Hc) as (He & _ & _ & Ha).
  destruct which; unfold send_message, twilioRequest,
    ServerTs.send_message, Part000.send_message.
  - rewrite He, bind_lift_inr.
    destruct (ServerTs.twilioRequest _ _ _ _ _) as [t [e|v]];
      [reflexivity|].
    unfold bind, success_result, outcome_result, handle, lift, fst, snd.
    destruct (responseText v); simpl; now rewrite ?app_nil_r.
  - rewrite Ha, He, !bind_lift_inr.
    destruct (Part000.twilioRequest _ _ _ _ _) as [t [e|v]];
      [reflexivity|].
    unfold bind, success_result, outcome_result, handle, lift, fst, snd.
    destruct (responseText v); simpl; now rewrite ?app_nil_r.
Qed.

(** Both variants, once the credentials are complete: the same shape
    with the variant's own reading of a failed response. *)
Lemma twilioRequest_run (fetch : request -> exn + response)
    (which : variant) (config : value)
    (endpoint : string) (method : http_method)
    (body : list (string * value)) :
  config_complete config = true ->
  plain_body body = true ->
  twilioRequest which fetch config endpoint method body
  = match fetch (issued_request which config endpoint method body) with
    | inl e => ([issued_request which config endpoint method body], inl e)
    | inr response =>
        ([issued_request which config endpoint method body],
         snd (twilioRequest which (fun _ => inr response) config endpoint
                method body))
    end.
Proof.
  intros Hc Hb. destruct which; unfold twilioRequest.
  - rewrite ServerTs_twilioRequest_run, bind_call by assumption.
    destruct (fetch _) as [e|response]; [reflexivity|].
    rewrite ServerTs_twilioRequest_run, bind_call by assumption.
    cbn [snd]. f_equal. f_equal.
    destruct (negb (ok response)); [|reflexivity].
    destruct (prop _ "message") as [e|message]; [reflexivity|].
    rewrite bind_lift_inr.
    destruct (truthy message); [|reflexivity].
    destruct (ToString message); reflexivity.
  - rewrite Part000_twilioRequest_run, bind_call by assumption.
    destruct (fetch _) as [e|response]; [reflexivity|].
    rewrite Part000_twilioRequest_run, bind_call by assumption.
    cbn [snd]. f_equal. f_equal.
    destruct (negb (ok response)); reflexivity.
Qed.

(** Exactly one request is issued. *)
Lemma twilioRequest_trace (fetch : request -> exn + response)
    (which : variant) (config : value)
    (endpoint : string) (method : http_method)
    (body : list (string * value)) :
  config_complete config = true ->
  plain_body body = true ->
  fst (twilioRequest which fetch config endpoint method body)
  = [issued_request which config endpoint method body].
Proof.
  intros Hc Hb. rewrite twilioRequest_run by assumption.
  destruct (fetch _); reflexivity.
Qed.

End Pipeline_facts.

Section Response_facts.
Context `{Runtime}.
Variables (config : value) (endpoint : string)
  (method : http_method) (body : list (string * value)).
Hypothesis Hconfig : config_complete config = true.
Hypothesis Hbody : plain_body body = true.
Variable response : response.

(** A successful response: its body is parsed, and a failure to parse is
    thrown. *)
Lemma twilioRequest_ok (which : variant) :
  ok response = true ->
  snd (twilioRequest which (fun _ => inr response) config endpoint method
         body)
  = parse_json (text response).
Proof.
  intros Hok. destruct which; unfold twilioRequest.
  - rewrite ServerTs_twilioRequest_run, bind_call by assumption.
    rewrite Hok. cbn. reflexivity.
  - rewrite Part000_twilioRequest_run, bind_call by assumption.
    rewrite Hok. cbn. reflexivity.
Qed.

(** A failed response in [part_000]. *)
Lemma Part000_failed :
  ok response = false ->
  snd (Part000.twilioRequest (fun _ => inr response) config endpoint method
         body)
  = inl (JsError (Part000.errorMessage (text response))).
Proof.
  intros Hok.
  rewrite Part000_twilioRequest_run, bind_call by assumption.
  rewrite Hok. reflexivity.
Qed.

(** A failed response in [server.ts] whose body does not parse. *)
Lemma ServerTs_failed_unparsed (msg : string) :
  ok response = false ->
  JSON_parse (text response) = inl msg ->
  snd (ServerTs.twilioRequest (fun _ => inr response) config endpoint method
         body)
  = inl (JsError ("Twilio API error: " ++ Number_toString (status response)
                  ++ " " ++ statusText response)).
Proof.
  intros Hok Hparse.
  rewrite ServerTs_twilioRequest_run, bind_call by assumption.
  unfold parse_json. rewrite Hok, Hparse. reflexivity.
Qed.

End Response_facts.

(* ================================================================== *)
(** ** The request builder *)

Section Request_builder.
Context `{Runtime}.

(** C2.  For a parameter mapping holding the list [elems] under [key], the
    builder produces a body; in the request it issues, that body has one
    field per element under [key], each the encoding of [key], [=] and
    the encoding of the element, in order: [length elems] occurrences of
    the key.  The mapping is a JavaScript object, so each key stands once
    in its entries, and [String] is taken not to throw on its values. *)
Theorem C2_list_field_once_per_element
    (which : variant) (fetch : request -> exn + response) (config : value)
    (endpoint : string) (params : list (string * value))
    (key : string) (elems : list value) :
  config_complete config = true ->
  plain_body params = true ->
  NoDup (map fst params) ->
  In (key, VArr elems) params ->
  exists fd text,
    formData params = inr fd
    /\ fst (twilioRequest which fetch config endpoint POST params)
       = [issued_request which config endpoint POST params]
    /\ body (issued_request which config endpoint POST params) = Some text
    /\ text = toString fd
    /\ getAll key fd = map string_of elems
    /\ fields_of_key key text
       = map (fun v => form_field (key, string_of v)) elems
    /\ length (fields_of_key key text) = length elems.
Proof.
  intros Hc Hb Hnd Hin.
  exists (flat_map entry_fields params), (toString (flat_map entry_fields params)).
  assert (Hfields :
            filter (fun p => String.eqb (fst p) key)
              (flat_map entry_fields params)
            = map (fun v => (key, string_of v)) elems)
    by apply (filter_fields_entry key (VArr elems) params Hnd Hin).
  repeat split.
  - now apply formData_plain.
  - now apply twilioRequest_trace.
  - unfold getAll. rewrite Hfields, map_map. reflexivity.
  - rewrite fields_of_key_toString, Hfields, map_map. reflexivity.
  - rewrite fields_of_key_toString, Hfields, !length_map. reflexivity.
Qed.

(** C3.  A key whose value is [null] or [undefined] is left out: the body
    of the issued request has no field under that key. *)
Theorem C3_null_and_undefined_omitted
    (which : variant) (fetch : request -> exn + response) (config : value)
    (endpoint : string) (params : list (string * value))
    (key : string) (v : value) :
  config_complete config = true ->
  plain_body params = true ->
  NoDup (map fst params) ->
  In (key, v) params ->
  v = VUndefined \/ v = VNull ->
  exists fd text,
    formData params = inr fd
    /\ fst (twilioRequest which fetch config endpoint POST params)
       = [issued_request which config endpoint POST params]
    /\ body (issued_request which config endpoint POST params) = Some text
    /\ text = toString fd
    /\ getAll key fd = []
    /\ fields_of_key key text = [].
Proof.
  intros Hc Hb Hnd Hin Hv.
  exists (flat_map entry_fields params), (toString (flat_map entry_fields params)).
  assert (Hfields :
            filter (fun p => String.eqb (fst p) key)
              (flat_map entry_fields params) = []).
  { rewrite (filter_fields_entry key v params Hnd Hin).
    destruct Hv as [-> | ->]; reflexivity. }
  repeat split.
  - now apply formData_plain.
  - now apply twilioRequest_trace.
  - unfold getAll. now rewrite Hfields.
  - now rewrite fields_of_key_toString, Hfields.
Qed.

(** C9.  Encoding a parameter mapping and decoding the body gives back the
    pairs that were encoded; the values decoded under the key of a list
    are the strings of its elements in their order, and for a list of
    strings they are the list itself. *)
Theorem C9_encode_decode_keeps_lists
    (params : list (string * value)) :
  plain_body params = true ->
  NoDup (map fst params) ->
  exists fd,
    formData params = inr fd
    /\ form_parse (toString fd) = fd
    /\ forall key elems,
         In (key, VArr elems) params ->
         getAll key (form_parse (toString fd)) = map string_of elems
         /\ forall strs, elems = map VStr strs ->
                         getAll key (form_parse (toString fd)) = strs.
Proof.
  intros Hb Hnd. exists (flat_map entry_fields params).
  split; [now apply formData_plain|].
  split; [apply form_parse_toString|].
  intros key elems Hin. rewrite form_parse_toString.
  assert (Hall : getAll key (flat_map entry_fields params)
                 = map string_of elems).
  { unfold getAll.
    rewrite (filter_fields_entry key (VArr elems) params Hnd Hin).
    simpl. now rewrite map_map. }
  split; [exact Hall|].
  intros strs ->. rewrite Hall, map_map.
  rewrite <- (map_id strs) at 2. apply map_ext. reflexivity.
Qed.

End Request_builder.

(* ================================================================== *)
(** ** The credential check *)

Section Credential_check.
Context `{Runtime}.

Lemma blank_falsy (v : value) : blank v = true -> truthy v = false.
Proof.
  destruct v; simpl; try discriminate; try reflexivity.
  intros ->. reflexivity.
Qed.

(** In [part_000] a blank key or secret is rejected with the configuration
    error before anything is sent: no request is issued. *)
Lemma Part000_rejects_blank_credentials
    (fetch : request -> exn + response) (config : value) (endpoint : string)
    (method : http_method) (params : list (string * value)) :
  blank (secret_of config "apiKey") || blank (secret_of config "apiSecret")
  = true ->
  Part000.twilioRequest fetch config endpoint method params
  = ([], inl Part000.missing_config).
Proof.
  intros Hblank. unfold Part000.twilioRequest.
  assert (Hmissing : Part000.credentials_missing config = inr true).
  { unfold Part000.credentials_missing.
    destruct config as [ | | b | n | s | elems | props]; simpl;
      try reflexivity;
      try (destruct (negb _); reflexivity).
    simpl in Hblank. apply orb_true_iff in Hblank as [Hk | Hs].
    - now rewrite (blank_falsy _ Hk).
    - rewrite (blank_falsy _ Hs).
      destruct (truthy (lookup "apiKey" props)); reflexivity. }
  rewrite Hmissing, bind_lift_inr. reflexivity.
Qed.

(** In [server.ts] the request is issued as soon as the token and the
    body can be built, whatever the key and the secret are. *)
Lemma ServerTs_issues_request
    (fetch : request -> exn + response) (config : value) (endpoint : string)
    (method : http_method) (params : list (string * value))
    (token : string) (fd : URLSearchParams) :
  authToken config = inr token ->
  formData params = inr fd ->
  fst (ServerTs.twilioRequest fetch config endpoint method params)
  = [ {| url := API_BASE_URL ++ endpoint;
         method := method;
         headers :=
           [ ("Authorization", "Basic " ++ token);
             ("Content-Type", "application/x-www-form-urlencoded") ];
         body := form_body method (toString fd) |} ].
Proof.
  intros Ht Hfd. unfold ServerTs.twilioRequest.
  rewrite Ht, Hfd, !bind_lift_inr, bind_call.
  destruct (fetch _) as [e|response]; [reflexivity|].
  cbn [fst]. f_equal.
  destruct (negb (ok response)); [|reflexivity].
  destruct (prop _ "message") as [e|message]; [reflexivity|].
  rewrite bind_lift_inr.
  destruct (truthy message); [|reflexivity].
  destruct (ToString message); reflexivity.
Qed.

End Credential_check.

(* ================================================================== *)
(** ** Failed responses *)

Section Failed_responses.
Context `{Runtime}.

Lemma errorMessage_unparsed (errorText msg : string) :
  JSON_parse errorText = inl msg -> Part000.errorMessage errorText = errorText.
Proof.
  intros Hparse. unfold Part000.errorMessage, parse_json.
  now rewrite Hparse.
Qed.

Lemma errorMessage_composed (errorText : string)
    (props : list (string * value)) :
  JSON_parse errorText = inr (VObj props) ->
  truthy (lookup "message" props) = true ->
  plain (lookup "code" props) = true ->
  plain (lookup "message" props) = true ->
  plain (lookup "more_info" props) = true ->
  Part000.errorMessage errorText = composed_message props.
Proof.
  intros Hparse Ht Hc Hm Hi.
  unfold Part000.errorMessage, parse_json, composed_message.
  rewrite Hparse. cbn [and_then prop]. rewrite Ht.
  now rewrite !ToString_plain by assumption.
Qed.

(** A present message that is not truthy leaves the text as it came. *)
Lemma errorMessage_falsy (errorText : string)
    (props : list (string * value)) :
  JSON_parse errorText = inr (VObj props) ->
  truthy (lookup "message" props) = false ->
  Part000.errorMessage errorText = errorText.
Proof.
  intros Hparse Ht. unfold Part000.errorMessage, parse_json.
  rewrite Hparse. cbn [and_then prop]. now rewrite Ht.
Qed.

(** In [part_000], a failed response whose body is no JSON is thrown with
    its text as it came. *)
Lemma Part000_unparsed_raw_text
    (fetch : request -> exn + response) (config : value) (endpoint : string)
    (method : http_method) (params : list (string * value))
    (resp : response) (msg : string) :
  config_complete config = true ->
  plain_body params = true ->
  fetch (issued_request part_000 config endpoint method params) = inr resp ->
  ok resp = false ->
  JSON_parse (text resp) = inl msg ->
  Part000.twilioRequest fetch config endpoint method params
  = ([issued_request part_000 config endpoint method params],
     inl (JsError (text resp))).
Proof.
  intros Hc Hb Hf Hok Hparse.
  change (Part000.twilioRequest fetch config endpoint method params)
    with (twilioRequest part_000 fetch config endpoint method params).
  rewrite twilioRequest_run, Hf by assumption. f_equal.
  unfold twilioRequest. rewrite Part000_failed by assumption.
  now rewrite (errorMessage_unparsed _ msg).
Qed.

(** C4.  In [part_000], a failed response whose body parses to an object
    with a truthy [message] (for a string: a non-empty one), whose [code],
    [message] and [more_info] convert to strings, is thrown with the
    message [Code <code>: <message> (More info: <more_info>)]. *)
Theorem C4_part_000_composes_error_message
    (fetch : request -> exn + response) (config : value) (endpoint : string)
    (method : http_method) (params : list (string * value))
    (resp : response) (props : list (string * value)) :
  config_complete config = true ->
  plain_body params = true ->
  fetch (issued_request part_000 config endpoint method params) = inr resp ->
  ok resp = false ->
  JSON_parse (text resp) = inr (VObj props) ->
  truthy (lookup "message" props) = true ->
  plain (lookup "code" props) = true ->
  plain (lookup "message" props) = true ->
  plain (lookup "more_info" props) = true ->
  Part000.twilioRequest fetch config endpoint method params
  = ([issued_request part_000 config endpoint method params],
     inl (JsError (composed_message props))).
Proof.
  intros Hc Hb Hf Hok Hparse Ht Hpc Hpm Hpi.
  change (Part000.twilioRequest fetch config endpoint method params)
    with (twilioRequest part_000 fetch config endpoint method params).
  rewrite twilioRequest_run, Hf by assumption. f_equal.
  unfold twilioRequest. rewrite Part000_failed by assumption.
  now rewrite (errorMessage_composed _ props).
Qed.

End Failed_responses.

(* ================================================================== *)
(** ** The response formatter *)

Section Formatter.
Context `{Runtime}.

Lemma has_own_lookup (k : string) (props : list (string * value)) :
  has_own k props = false -> lookup k props = VUndefined.
Proof.
  induction props as [|[k' v] props IH]; simpl; [reflexivity|].
  destruct (String.eqb k' k); [discriminate|exact IH].
Qed.

(** The lines made for a message resource: the five of the summary, and
    the error line when [error_message] is truthy. *)
Lemma responseText_resource (props : list (string * value)) :
  message_resource (VObj props) = true ->
  responseText (VObj props)
  = if truthy (lookup "error_message" props) then
      error_message <-- ToString (lookup "error_message" props) ;;
      inr (push (summary_lines (VObj props)) ("Error: " ++ error_message))
    else inr (summary_lines (VObj props)).
Proof.
  unfold message_resource, forallb. intros Hr.
  repeat (apply andb_true_iff in Hr as [? Hr]).
  unfold responseText, summary_lines, prop. cbn [and_then].
  now rewrite !ToString_plain by assumption.
Qed.

Lemma responseText_falsy (props : list (string * value)) :
  message_resource (VObj props) = true ->
  truthy (lookup "error_message" props) = false ->
  responseText (VObj props) = inr (summary_lines (VObj props)).
Proof.
  intros Hr Ht. now rewrite responseText_resource, Ht.
Qed.

Lemma responseText_truthy (props : list (string * value)) :
  message_resource (VObj props) = true ->
  truthy (lookup "error_message" props) = true ->
  plain (lookup "error_message" props) = true ->
  responseText (VObj props)
  = inr (push (summary_lines (VObj props))
           ("Error: " ++ string_of (lookup "error_message" props))).
Proof.
  intros Hr Ht Hp. now rewrite responseText_resource, Ht, ToString_plain.
Qed.

(** The handler on a successful response that parses: one request, and
    the formatter applied to the parsed value. *)
Lemma send_message_parsed
    (which : variant) (fetch : request -> exn + response) (config : value)
    (params : list (string * value)) (resp : response) (v : value) :
  config_complete config = true ->
  plain_body params = true ->
  fetch (issued_request which config (endpoint_of config) POST params)
  = inr resp ->
  ok resp = true ->
  JSON_parse (text resp) = inr v ->
  send_message which fetch config params
  = ([issued_request which config (endpoint_of config) POST params],
     outcome_result (inr v)).
Proof.
  intros Hc Hb Hf Hok Hparse.
  rewrite send_message_run, twilioRequest_run, Hf by assumption.
  cbn [fst snd]. rewrite twilioRequest_ok by assumption.
  unfold parse_json. now rewrite Hparse.
Qed.

(** The lines of a joined text are the pieces joined, when no piece holds
    a line feed. *)
Lemma lines_concat (l : list string) :
  l <> [] ->
  Forall (fun piece => occurs (ascii_of_nat 10) piece = false) l ->
  lines (String.concat LF l) = l.
Proof. intros Hne Hall. now apply split_on_concat. Qed.

(** C6.  For a message resource returned with a successful response, the
    handler gives the success result (no error flag) whose text joins the
    five lines of the summary: the success line, SID, status, To and
    From.  With no [error_message] there is no further line; with
    [error_message] equal to ["Carrier rejected"] a sixth line
    [Error: Carrier rejected] follows, still in the success result. *)
Theorem C6_summary_has_five_lines_error_is_sixth
    (which : variant) (fetch : request -> exn + response) (config : value)
    (params : list (string * value)) (resp : response)
    (props : list (string * value)) :
  config_complete config = true ->
  plain_body params = true ->
  fetch (issued_request which config (endpoint_of config) POST params)
  = inr resp ->
  ok resp = true ->
  JSON_parse (text resp) = inr (VObj props) ->
  message_resource (VObj props) = true ->
  length (summary_lines (VObj props)) = 5
  /\ Forall (fun line => starts_with "Error: " line = false)
       (summary_lines (VObj props))
  /\ (has_own "error_message" props = false ->
      send_message which fetch config params
      = ([issued_request which config (endpoint_of config) POST params],
         text_result (summary_lines (VObj props))))
  /\ (lookup "error_message" props = VStr "Carrier rejected" ->
      send_message which fetch config params
      = ([issued_request which config (endpoint_of config) POST params],
         text_result
           (push (summary_lines (VObj props)) "Error: Carrier rejected")))
  /\ (Forall (fun line => occurs (ascii_of_nat 10) line = false)
        (summary_lines (VObj props)) ->
      lines (String.concat LF (summary_lines (VObj props)))
      = summary_lines (VObj props)
      /\ lines (String.concat LF
                  (push (summary_lines (VObj props))
                     "Error: Carrier rejected"))
         = push (summary_lines (VObj props)) "Error: Carrier rejected").
Proof.
  intros Hc Hb Hf Hok Hparse Hr.
  pose proof (send_message_parsed which fetch config params resp (VObj props)
                Hc Hb Hf Hok Hparse) as Hrun.
  split; [reflexivity|].
  split; [repeat constructor|]. split; [|split].
  - intros Habsent. rewrite Hrun. unfold outcome_result.
    rewrite responseText_falsy; [reflexivity|assumption|].
    now rewrite has_own_lookup.
  - intros Hem. rewrite Hrun. unfold outcome_result.
    rewrite responseText_truthy by (assumption || now rewrite Hem).
    now rewrite Hem.
  - intros Hall. split; apply lines_concat; try discriminate; try assumption.
    unfold push. apply Forall_app. split; [assumption|].
    constructor; [reflexivity|constructor].
Qed.

(** C10.  For a message resource whose [error_message] is a string,
    [null] or absent: when it is blank (empty, [null] or absent) the lines
    are the five of the summary, none of them an [Error:] line; an error
    line is pushed exactly when [error_message] is a non-empty string, and
    it is [Error: ] followed by that string. *)
Theorem C10_error_line_iff_nonempty_string
    (which : variant) (fetch : request -> exn + response) (config : value)
    (params : list (string * value)) (resp : response)
    (props : list (string * value)) :
  config_complete config = true ->
  plain_body params = true ->
  fetch (issued_request which config (endpoint_of config) POST params)
  = inr resp ->
  ok resp = true ->
  JSON_parse (text resp) = inr (VObj props) ->
  message_resource (VObj props) = true ->
  ((exists s, lookup "error_message" props = VStr s)
   \/ lookup "error_message" props = VNull
   \/ lookup "error_message" props = VUndefined) ->
  (blank (lookup "error_message" props) = true ->
   responseText (VObj props) = inr (summary_lines (VObj props))
   /\ Forall (fun line => starts_with "Error: " line = false)
        (summary_lines (VObj props))
   /\ send_message which fetch config params
      = ([issued_request which config (endpoint_of config) POST params],
         text_result (summary_lines (VObj props))))
  /\ ((exists line,
         responseText (VObj props)
         = inr (push (summary_lines (VObj props)) line))
      <-> exists s, lookup "error_message" props = VStr s /\ s <> "")
  /\ (forall s,
        lookup "error_message" props = VStr s -> s <> "" ->
        send_message which fetch config params
        = ([issued_request which config (endpoint_of config) POST params],
           text_result (push (summary_lines (VObj props)) ("Error: " ++ s)))).
Proof.
  intros Hc Hb Hf Hok Hparse Hr Htyped.
  pose proof (send_message_parsed which fetch config params resp (VObj props)
                Hc Hb Hf Hok Hparse) as Hrun.
  assert (Hnonempty : forall s, lookup "error_message" props = VStr s ->
                                s <> "" ->
                                responseText (VObj props)
                                = inr (push (summary_lines (VObj props))
                                         ("Error: " ++ s))).
  { intros s Hs Hne. rewrite responseText_truthy; rewrite ?Hs; try easy.
    simpl. apply negb_true_iff. now apply String.eqb_neq. }
  split; [|split].
  - intros Hblank.
    assert (Hlines : responseText (VObj props)
                     = inr (summary_lines (VObj props)))
      by (apply responseText_falsy; [assumption|now apply blank_falsy]).
    split; [exact Hlines|]. split; [repeat constructor|].
    rewrite Hrun. unfold outcome_result. now rewrite Hlines.
  - split.
    + intros [line Hline].
      destruct Htyped as [[s Hs] | Hfalsy].
      * exists s. split; [exact Hs|]. intros ->.
        rewrite responseText_falsy in Hline;
          [|assumption|now rewrite Hs].
        inversion Hline.
      * rewrite responseText_falsy in Hline;
          [|assumption|destruct Hfalsy as [-> | ->]; reflexivity].
        inversion Hline.
    + intros [s [Hs Hne]]. exists ("Error: " ++ s). now apply Hnonempty.
  - intros s Hs Hne. rewrite Hrun. unfold outcome_result.
    now rewrite (Hnonempty s Hs Hne).
Qed.

End Formatter.

(* ================================================================== *)
(** ** The catch-all of the tool handler *)

Section Catch_all.
Context `{Runtime}.

Lemma bind_thrown {A B : Type} (m : M A) (f : A -> M B) (e : exn) :
  snd m = inl e -> snd (bind m f) = inl e.
Proof. destruct m as [t [e'|a]]; simpl; intros He; congruence. Qed.

Lemma bind_returned {A B : Type} (m : M A) (f : A -> M B) (b : B) :
  snd (bind m f) = inr b ->
  exists a, snd m = inr a /\ snd (f a) = inr b.
Proof.
  destruct m as [t [e|a]]; simpl; intros Hb; [discriminate|].
  exists a. split; [reflexivity|]. now destruct (f a).
Qed.

Lemma handle_thrown (m : M tool_result) (e : exn) :
  snd m = inl e -> snd (handle m) = error_result e.
Proof. destruct m as [t [e'|r]]; simpl; intros He; congruence. Qed.

Lemma handle_cases (m : M tool_result) :
  (exists e, snd m = inl e /\ snd (handle m) = error_result e)
  \/ (exists r, snd m = inr r /\ snd (handle m) = r).
Proof.
  destruct m as [t [e|r]]; [left; exists e|right; exists r];
    split; reflexivity.
Qed.

(** What the formatter returns opens with the success line. *)
Lemma responseText_head (response : value) (lines : list string) :
  responseText response = inr lines ->
  exists rest, lines = "Message sent successfully!" :: rest.
Proof.
  unfold responseText, and_then.
  repeat match goal with
         | |- context [match ?x with inl _ => _ | inr _ => _ end] =>
             destruct x; try discriminate
         | |- context [if ?b then _ else _] => destruct b
         end;
    intros Heq; inversion Heq; eexists; reflexivity.
Qed.

Lemma success_result_returned (response : value) (r : tool_result) :
  snd (success_result response) = inr r ->
  exists rest, r = text_result ("Message sent successfully!" :: rest).
Proof.
  unfold success_result. intros Hr.
  apply bind_returned in Hr as [lines [Hlines Hr]].
  apply responseText_head in Hlines as [rest ->].
  exists rest. simpl in Hr. now inversion Hr.
Qed.

(** The handler ends in one of two outcomes: an error result, or the
    success result whose text opens with the success line. *)
Lemma send_message_outcomes
    (which : variant) (fetch : request -> exn + response) (config : value)
    (params : list (string * value)) :
  (exists e, snd (send_message which fetch config params) = error_result e)
  \/ (exists rest,
        snd (send_message which fetch config params)
        = text_result ("Message sent successfully!" :: rest)).
Proof.
  destruct which; unfold send_message, ServerTs.send_message,
    Part000.send_message;
    match goal with
    | |- context [handle ?m] => destruct (handle_cases m) as [[e [_ He]]|[r [Hm Hr]]]
    end;
    try (left; exists e; exact He);
    right; rewrite Hr.
  - apply bind_returned in Hm as [endpoint [_ Hm]].
    apply bind_returned in Hm as [response [_ Hm]].
    now apply success_result_returned in Hm.
  - apply bind_returned in Hm as [missing [_ Hm]].
    destruct missing; [discriminate|].
    apply bind_returned in Hm as [endpoint [_ Hm]].
    apply bind_returned in Hm as [response [_ Hm]].
    now apply success_result_returned in Hm.
Qed.

(** When every answer of [fetch] is a successful response whose body does
    not parse, [twilioRequest] returns nothing: it throws. *)
Lemma twilioRequest_unparsed_throws
    (which : variant) (fetch : request -> exn + response) (config : value)
    (endpoint : string) (method : http_method)
    (params : list (string * value)) (resp : response) (msg : string) :
  (forall req, fetch req = inr resp) ->
  ok resp = true ->
  JSON_parse (text resp) = inl msg ->
  exists e,
    snd (twilioRequest which fetch config endpoint method params) = inl e.
Proof.
  intros Hf Hok Hparse.
  destruct (snd (twilioRequest which fetch config endpoint method params))
    as [e|v] eqn:Hrun; [now exists e|exfalso].
  assert (Hanswer :
            forall req (k : response -> M value),
              snd (bind (call fetch req) k) = inr v ->
              snd (k resp) = inr v).
  { intros req k Hk. apply bind_returned in Hk as [r [Hr Hk]].
    unfold call in Hr. simpl in Hr. rewrite Hf in Hr. now inversion Hr. }
  destruct which; unfold twilioRequest in Hrun.
  - unfold ServerTs.twilioRequest in Hrun.
    apply bind_returned in Hrun as [token [_ Hrun]].
    apply bind_returned in Hrun as [fd [_ Hrun]].
    apply Hanswer in Hrun. rewrite Hok in Hrun. simpl in Hrun.
    unfold parse_json in Hrun. rewrite Hparse in Hrun. discriminate.
  - unfold Part000.twilioRequest in Hrun.
    apply bind_returned in Hrun as [missing [_ Hrun]].
    destruct missing; [discriminate|].
    apply bind_returned in Hrun as [token [_ Hrun]].
    apply bind_returned in Hrun as [fd [_ Hrun]].
    rewrite try_catch_rethrow in Hrun.
    apply Hanswer in Hrun. rewrite Hok in Hrun. simpl in Hrun.
    unfold parse_json in Hrun. rewrite Hparse in Hrun. discriminate.
Qed.

(** C7.  A successful response whose body does not parse never gives the
    success result: the handler ends in the error result, with the error
    flag and the prefixed text.  With a complete configuration the parse
    failure is what [twilioRequest] throws and what the handler reports. *)
Theorem C7_malformed_success_body_is_an_error
    (which : variant) (fetch : request -> exn + response) (config : value)
    (params : list (string * value)) (resp : response) (msg : string) :
  (forall req, fetch req = inr resp) ->
  ok resp = true ->
  JSON_parse (text resp) = inl msg ->
  (exists e, snd (send_message which fetch config params) = error_result e)
  /\ isError (snd (send_message which fetch config params)) = true
  /\ starts_with "Error sending message: "
       (result_text (snd (send_message which fetch config params))) = true
  /\ (forall lines,
        snd (send_message which fetch config params) <> text_result lines)
  /\ (config_complete config = true ->
      plain_body params = true ->
      twilioRequest which fetch config (endpoint_of config) POST params
      = ([issued_request which config (endpoint_of config) POST params],
         inl (JsError msg))
      /\ send_message which fetch config params
         = ([issued_request which config (endpoint_of config) POST params],
            error_result (JsError msg))).
Proof.
  intros Hf Hok Hparse.
  assert (Herror : exists e,
             snd (send_message which fetch config params) = error_result e).
  { assert (Hthrows := fun endpoint =>
              twilioRequest_unparsed_throws which fetch config endpoint POST
                params resp msg Hf Hok Hparse).
    destruct which; unfold send_message, ServerTs.send_message,
      Part000.send_message;
      match goal with
      | |- context [handle ?m] =>
          destruct (handle_cases m) as [[e [_ He]]|[r [Hm _]]]
      end;
      try (exists e; exact He); exfalso.
    - apply bind_returned in Hm as [endpoint [_ Hm]].
      apply bind_returned in Hm as [response [Hm _]].
      destruct (Hthrows endpoint) as [e He]. unfold twilioRequest in He.
      congruence.
    - apply bind_returned in Hm as [missing [_ Hm]].
      destruct missing; [discriminate|].
      apply bind_returned in Hm as [endpoint [_ Hm]].
      apply bind_returned in Hm as [response [Hm _]].
      destruct (Hthrows endpoint) as [e He]. unfold twilioRequest in He.
      congruence. }
  destruct Herror as [e He].
  split; [now exists e|]. rewrite He.
  split; [reflexivity|]. split; [apply starts_with_app|].
  split; [intros lines Heq; discriminate (f_equal isError Heq)|].
  intros Hc Hb.
  assert (Hrun : twilioRequest which fetch config (endpoint_of config) POST
                   params
                 = ([issued_request which config (endpoint_of config) POST
                       params], inl (JsError msg))).
  { rewrite twilioRequest_run, Hf by assumption. f_equal.
    rewrite twilioRequest_ok by assumption.
    unfold parse_json. now rewrite Hparse. }
  split; [exact Hrun|].
  rewrite send_message_run, Hrun by assumption. reflexivity.
Qed.

(** The handler turns whatever [twilioRequest] throws into the error
    result of that error. *)
Lemma send_message_converts
    (which : variant) (fetch : request -> exn + response) (config : value)
    (params : list (string * value)) (endpoint : string) (e : exn) :
  messages_endpoint config = inr endpoint ->
  (which = part_000 -> Part000.account_missing config = inr false) ->
  snd (twilioRequest which fetch config endpoint POST params) = inl e ->
  snd (send_message which fetch config params) = error_result e.
Proof.
  intros Hendpoint Haccount He.
  destruct which; unfold send_message, ServerTs.send_message,
    Part000.send_message, twilioRequest in *.
  - rewrite Hendpoint, bind_lift_inr.
    apply handle_thrown. now apply bind_thrown.
  - rewrite (Haccount eq_refl), Hendpoint, !bind_lift_inr.
    apply handle_thrown. now apply bind_thrown.
Qed.

(** A configuration error: in [part_000], a missing account identifier
    ends in the error result of the configuration error, nothing sent. *)
Lemma send_message_missing_account
    (fetch : request -> exn + response) (config : value)
    (params : list (string * value)) :
  Part000.account_missing config = inr true ->
  send_message part_000 fetch config params
  = ([], error_result Part000.missing_config).
Proof.
  intros Hmissing. unfold send_message, Part000.send_message.
  rewrite Hmissing, bind_lift_inr. reflexivity.
Qed.

(** A configuration error: in [part_000], a blank key or secret ends in
    the error result of the configuration error, nothing sent. *)
Lemma send_message_missing_credentials
    (fetch : request -> exn + response) (config : value)
    (params : list (string * value)) (endpoint : string) :
  messages_endpoint config = inr endpoint ->
  Part000.account_missing config = inr false ->
  blank (secret_of config "apiKey") || blank (secret_of config "apiSecret")
  = true ->
  send_message part_000 fetch config params
  = ([], error_result Part000.missing_config).
Proof.
  intros Hendpoint Haccount Hblank.
  unfold send_message, Part000.send_message.
  rewrite Haccount, Hendpoint, !bind_lift_inr.
  now rewrite Part000_rejects_blank_credentials.
Qed.

(** A transport error: what [fetch] rejects with ends in its error
    result. *)
Lemma send_message_rejected
    (which : variant) (fetch : request -> exn + response) (config : value)
    (params : list (string * value)) (e : exn) :
  config_complete config = true ->
  plain_body params = true ->
  fetch (issued_request which config (endpoint_of config) POST params)
  = inl e ->
  send_message which fetch config params
  = ([issued_request which config (endpoint_of config) POST params],
     error_result e).
Proof.
  intros Hc Hb Hf.
  rewrite send_message_run, twilioRequest_run, Hf by assumption.
  reflexivity.
Qed.

(** C8.  The handler always returns a result, one of two: the success
    result, or an error result, which has the error flag and the text
    [Error sending message: ] followed by the message of the error, on
    one line when that message holds no line feed.  Whatever
    [twilioRequest] throws (a missing configuration, a failed response, a
    rejection of [fetch], a body that does not parse) ends in the error
    result of that error. *)
Theorem C8_every_error_becomes_an_error_result
    (which : variant) (fetch : request -> exn + response) (config : value)
    (params : list (string * value)) :
  ((exists e, snd (send_message which fetch config params) = error_result e)
   \/ (exists rest,
         snd (send_message which fetch config params)
         = text_result ("Message sent successfully!" :: rest)))
  /\ (forall endpoint e,
        messages_endpoint config = inr endpoint ->
        (which = part_000 -> Part000.account_missing config = inr false) ->
        snd (twilioRequest which fetch config endpoint POST params) = inl e ->
        snd (send_message which fetch config params) = error_result e)
  /\ (forall e,
        isError (error_result e) = true
        /\ result_text (error_result e)
           = "Error sending message: " ++ message_of e
        /\ (occurs (ascii_of_nat 10) (message_of e) = false ->
            lines (result_text (error_result e))
            = ["Error sending message: " ++ message_of e])).
Proof.
  split; [apply send_message_outcomes|].
  split; [intros endpoint e; apply send_message_converts|].
  intros [message]. split; [reflexivity|]. split; [reflexivity|].
  intros Hclean. apply lines_absent. simpl. exact Hclean.
Qed.

End Catch_all.

(* ================================================================== *)
(** ** The requests a call issues *)

Section Requests.
Context `{Runtime}.

Lemma fst_bind_silent {A B : Type} (m : M A) (f : A -> M B) :
  (forall a, fst (f a) = []) -> fst (bind m f) = fst m.
Proof.
  intros Hf. destruct m as [t [e|a]]; simpl; [reflexivity|].
  specialize (Hf a). destruct (f a) as [t' r]. simpl in *. subst.
  apply app_nil_r.
Qed.

Lemma fst_handle (m : M tool_result) : fst (handle m) = fst m.
Proof. now destruct m as [t [e|r]]. Qed.

Lemma success_result_silent (response : value) :
  fst (success_result response) = [].
Proof. unfold success_result. now destruct (responseText response). Qed.

(** What follows the call of [fetch] issues nothing more. *)
Lemma fst_bind_call {A : Type} (fetch : request -> exn + response)
    (req : request) (f : response -> M A) :
  (forall r, fst (f r) = []) -> fst (bind (call fetch req) f) = [req].
Proof.
  intros Hf. rewrite bind_call. destruct (fetch req) as [e|r];
    [reflexivity|]. simpl. now rewrite Hf.
Qed.

(** [twilioRequest] issues nothing, or the one request built from the
    token and the pairs it computed. *)
Lemma twilioRequest_trace_cases
    (which : variant) (fetch : request -> exn + response) (config : value)
    (endpoint : string) (method : http_method)
    (params : list (string * value)) :
  fst (twilioRequest which fetch config endpoint method params) = []
  \/ exists token fd,
       authToken config = inr token
       /\ formData params = inr fd
       /\ (which = part_000 ->
           Part000.credentials_missing config = inr false)
       /\ fst (twilioRequest which fetch config endpoint method params)
          = [built_request which endpoint method token fd].
Proof.
  destruct which; unfold twilioRequest.
  - unfold ServerTs.twilioRequest.
    destruct (authToken config) as [e|token]; [now left|].
    destruct (formData params) as [e|fd]; [now left|].
    right. exists token, fd. repeat split; try discriminate.
    rewrite !bind_lift_inr. apply fst_bind_call. intros r.
    destruct (negb (ok r)); [|reflexivity].
    destruct (prop _ "message") as [e|message]; [reflexivity|].
    rewrite bind_lift_inr.
    destruct (truthy message); [|reflexivity].
    destruct (ToString message); reflexivity.
  - unfold Part000.twilioRequest.
    destruct (Part000.credentials_missing config) as [e|[|]];
      [now left|now left|].
    rewrite bind_lift_inr.
    destruct (authToken config) as [e|token]; [now left|].
    destruct (formData params) as [e|fd]; [now left|].
    right. exists token, fd. repeat split.
    rewrite !bind_lift_inr, try_catch_rethrow. apply fst_bind_call.
    intros r. destruct (negb (ok r)); reflexivity.
Qed.

(** The requests of the handler are those of [twilioRequest] at the
    endpoint of the account. *)
Lemma send_message_trace_cases
    (which : variant) (fetch : request -> exn + response) (config : value)
    (params : list (string * value)) :
  fst (send_message which fetch config params) = []
  \/ exists endpoint,
       messages_endpoint config = inr endpoint
       /\ (which = part_000 -> Part000.account_missing config = inr false)
       /\ fst (send_message which fetch config params)
          = fst (twilioRequest which fetch config endpoint POST params).
Proof.
  destruct which; unfold send_message, twilioRequest,
    ServerTs.send_message, Part000.send_message; rewrite fst_handle.
  - destruct (messages_endpoint config) as [e|endpoint]; [now left|].
    right. exists endpoint. repeat split; try discriminate.
    rewrite bind_lift_inr. apply fst_bind_silent, success_result_silent.
  - destruct (Part000.account_missing config) as [e|[|]];
      [now left|now left|].
    rewrite bind_lift_inr.
    destruct (messages_endpoint config) as [e|endpoint]; [now left|].
    right. exists endpoint. repeat split.
    rewrite bind_lift_inr. apply fst_bind_silent, success_result_silent.
Qed.

(** X1.  Whatever the configuration, the parameters and the answers of
    [fetch], one invocation of the tool issues at most one request; the
    request it issues is a [POST] to the messages endpoint of the account,
    with the token of the credentials and the serialized parameters as
    body.  Nothing is tried twice. *)
Theorem X1_at_most_one_request
    (which : variant) (fetch : request -> exn + response) (config : value)
    (params : list (string * value)) :
  length (fst (send_message which fetch config params)) <= 1
  /\ forall req,
       In req (fst (send_message which fetch config params)) ->
       exists endpoint token fd,
         messages_endpoint config = inr endpoint
         /\ authToken config = inr token
         /\ formData params = inr fd
         /\ req = built_request which endpoint POST token fd
         /\ method req = POST
         /\ body req = Some (toString fd).
Proof.
  destruct (send_message_trace_cases which fetch config params)
    as [Hnone | [endpoint [He [_ Htrace]]]].
  - rewrite Hnone. split; [simpl; auto|]. intros req [].
  - rewrite Htrace.
    destruct (twilioRequest_trace_cases which fetch config endpoint POST
                params) as [Hnone | [token [fd [Ht [Hfd [_ Hone]]]]]].
    + rewrite Hnone. split; [simpl; auto|]. intros req [].
    + rewrite Hone. split; [simpl; auto|].
      intros req [<- | []]. exists endpoint, token, fd.
      repeat split; assumption.
Qed.

End Requests.

(* ================================================================== *)
(** ** The outcomes of the tool *)

Section Outcomes.
Context `{Runtime}.

Lemma append_nil_right (s : string) : s ++ "" = s.
Proof. induction s as [|c s IH]; simpl; [reflexivity|now rewrite IH]. Qed.

Lemma concat_head (head : string) (rest : list string) :
  starts_with head (String.concat LF (head :: rest)) = true.
Proof.
  destruct rest; simpl; [|apply starts_with_app].
  rewrite <- (append_nil_right head) at 2. apply starts_with_app.
Qed.

(** X2.  The result of the tool always holds exactly one block, of type
    [text].  Its error flag is set exactly when the text opens with
    [Error sending message: ], and is not set exactly when the text opens
    with [Message sent successfully!]. *)
Theorem X2_one_text_block_flag_matches_text
    (which : variant) (fetch : request -> exn + response) (config : value)
    (params : list (string * value)) :
  exists text,
    content (snd (send_message which fetch config params))
    = [ {| block_type := "text"; block_text := text |} ]
    /\ (isError (snd (send_message which fetch config params)) = true
        <-> starts_with "Error sending message: " text = true)
    /\ (isError (snd (send_message which fetch config params)) = false
        <-> starts_with "Message sent successfully!" text = true).
Proof.
  destruct (send_message_outcomes which fetch config params)
    as [[e ->] | [rest ->]].
  - destruct e as [message].
    exists ("Error sending message: " ++ message).
    split; [reflexivity|].
    split; split; intros Hx; try reflexivity; simpl in Hx; discriminate.
  - exists (String.concat LF ("Message sent successfully!" :: rest)).
    split; [reflexivity|].
    assert (Hhead := concat_head "Message sent successfully!" rest).
    split; split; intros Hx; try reflexivity; try discriminate;
      try exact Hhead.
    destruct rest; simpl in Hx; discriminate.
Qed.

(** When every answer of [fetch] is a failed response, [twilioRequest]
    returns nothing: it throws. *)
Lemma twilioRequest_failed_throws
    (which : variant) (fetch : request -> exn + response) (config : value)
    (endpoint : string) (method : http_method)
    (params : list (string * value)) (resp : response) :
  (forall req, fetch req = inr resp) ->
  ok resp = false ->
  exists e,
    snd (twilioRequest which fetch config endpoint method params) = inl e.
Proof.
  intros Hf Hok.
  destruct (snd (twilioRequest which fetch config endpoint method params))
    as [e|v] eqn:Hrun; [now exists e|exfalso].
  assert (Hanswer :
            forall req (k : response -> M value),
              snd (bind (call fetch req) k) = inr v ->
              snd (k resp) = inr v).
  { intros req k Hk. apply bind_returned in Hk as [r [Hr Hk]].
    unfold call in Hr. simpl in Hr. rewrite Hf in Hr. now inversion Hr. }
  destruct which; unfold twilioRequest in Hrun.
  - unfold ServerTs.twilioRequest in Hrun.
    apply bind_returned in Hrun as [token [_ Hrun]].
    apply bind_returned in Hrun as [fd [_ Hrun]].
    apply Hanswer in Hrun. rewrite Hok in Hrun. cbn [negb] in Hrun.
    apply bind_returned in Hrun as [message [_ Hrun]].
    apply bind_returned in Hrun as [message' [_ Hrun]].
    discriminate.
  - unfold Part000.twilioRequest in Hrun.
    apply bind_returned in Hrun as [missing [_ Hrun]].
    destruct missing; [discriminate|].
    apply bind_returned in Hrun as [token [_ Hrun]].
    apply bind_returned in Hrun as [fd [_ Hrun]].
    rewrite try_catch_rethrow in Hrun.
    apply Hanswer in Hrun. rewrite Hok in Hrun. discriminate.
Qed.

(** X3.  A failed response never gives the success result: whatever its
    body, its status and the configuration, the tool ends in an error
    result, with the error flag. *)
Theorem X3_failed_response_is_never_a_success
    (which : variant) (fetch : request -> exn + response) (config : value)
    (params : list (string * value)) (resp : response) :
  (forall req, fetch req = inr resp) ->
  ok resp = false ->
  (exists e, snd (send_message which fetch config params) = error_result e)
  /\ isError (snd (send_message which fetch config params)) = true
  /\ forall lines,
       snd (send_message which fetch config params) <> text_result lines.
Proof.
  intros Hf Hok.
  assert (Herror : exists e,
             snd (send_message which fetch config params) = error_result e).
  { assert (Hthrows := fun endpoint =>
              twilioRequest_failed_throws which fetch config endpoint POST
                params resp Hf Hok).
    destruct which; unfold send_message, ServerTs.send_message,
      Part000.send_message;
      match goal with
      | |- context [handle ?m] =>
          destruct (handle_cases m) as [[e [_ He]]|[r [Hm _]]]
      end;
      try (exists e; exact He); exfalso.
    - apply bind_returned in Hm as [endpoint [_ Hm]].
      apply bind_returned in Hm as [response [Hm _]].
      destruct (Hthrows endpoint) as [e He]. unfold twilioRequest in He.
      congruence.
    - apply bind_returned in Hm as [missing [_ Hm]].
      destruct missing; [discriminate|].
      apply bind_returned in Hm as [endpoint [_ Hm]].
      apply bind_returned in Hm as [response [Hm _]].
      destruct (Hthrows endpoint) as [e He]. unfold twilioRequest in He.
      congruence. }
  destruct Herror as [e He]. split; [now exists e|]. rewrite He.
  split; [reflexivity|].
  intros lines Heq. discriminate (f_equal isError Heq).
Qed.

(** X4.  A rejection of [fetch] (the network failing) is thrown by
    [twilioRequest] as it came, after the one request, and the tool
    reports its message; in [part_000] the [catch] around the call throws
    it again unchanged. *)
Theorem X4_rejection_is_reported_unchanged
    (which : variant) (fetch : request -> exn + response) (config : value)
    (params : list (string * value)) (e : exn) :
  config_complete config = true ->
  plain_body params = true ->
  fetch (issued_request which config (endpoint_of config) POST params)
  = inl e ->
  twilioRequest which fetch config (endpoint_of config) POST params
  = ([issued_request which config (endpoint_of config) POST params], inl e)
  /\ send_message which fetch config params
     = ([issued_request which config (endpoint_of config) POST params],
        error_result e)
  /\ result_text (snd (send_message which fetch config params))
     = "Error sending message: " ++ message_of e.
Proof.
  intros Hc Hb Hf.
  assert (Hrun : twilioRequest which fetch config (endpoint_of config) POST
                   params
                 = ([issued_request which config (endpoint_of config) POST
                       params], inl e))
    by now rewrite twilioRequest_run, Hf.
  split; [exact Hrun|].
  rewrite send_message_run, Hrun by assumption.
  split; [reflexivity|]. now destruct e.
Qed.

End Outcomes.

(* ================================================================== *)
(** ** The configuration *)

Section Configuration.
Context `{Runtime}.

Lemma prop_secret_of (config : value) (k : string) :
  truthy config = true -> prop config k = inr (secret_of config k).
Proof. destruct config; simpl; intros Ht; try discriminate; reflexivity. Qed.

Lemma account_missing_falsy (config : value) :
  truthy config = false \/ truthy (secret_of config "accountSid") = false ->
  Part000.account_missing config = inr true.
Proof.
  unfold Part000.account_missing.
  destruct (truthy config) eqn:Ht; simpl; [|reflexivity].
  intros [Hx | Hx]; [discriminate|].
  rewrite prop_secret_of by assumption. simpl. now rewrite Hx.
Qed.

Lemma credentials_missing_falsy (config : value) :
  truthy (secret_of config "apiKey") = false
  \/ truthy (secret_of config "apiSecret") = false ->
  Part000.credentials_missing config = inr true.
Proof.
  unfold Part000.credentials_missing.
  destruct (truthy config) eqn:Ht; simpl; [|reflexivity].
  rewrite !prop_secret_of by assumption. simpl.
  intros [Hx | Hx]; rewrite Hx; simpl; [reflexivity|].
  destruct (truthy (secret_of config "apiKey")); reflexivity.
Qed.

(** X5.  In [part_000] the tool sends nothing and reports the
    configuration error whenever the configuration is missing, or its
    account identifier, key or secret is missing or falsy. *)
Theorem X5_part_000_incomplete_config_sends_nothing
    (fetch : request -> exn + response) (config : value)
    (params : list (string * value)) :
  truthy config = false
  \/ truthy (secret_of config "accountSid") = false
  \/ (plain (secret_of config "accountSid") = true
      /\ (truthy (secret_of config "apiKey") = false
          \/ truthy (secret_of config "apiSecret") = false)) ->
  send_message part_000 fetch config params
  = ([], error_result Part000.missing_config)
  /\ result_text (snd (send_message part_000 fetch config params))
     = "Error sending message: Server configuration for Twilio is missing.".
Proof.
  intros Hmissing.
  assert (Hrun : send_message part_000 fetch config params
                 = ([], error_result Part000.missing_config)).
  { destruct (truthy config) eqn:Hconfig;
      [|apply send_message_missing_account, account_missing_falsy; now left].
    destruct (truthy (secret_of config "accountSid")) eqn:Haccount;
      [|apply send_message_missing_account, account_missing_falsy; now right].
    destruct Hmissing as [Hx | [Hx | [Hplain Hsecret]]]; try discriminate.
    assert (Ha : Part000.account_missing config = inr false).
    { unfold Part000.account_missing.
      rewrite Hconfig, prop_secret_of by assumption.
      cbn [negb and_then]. now rewrite Haccount. }
    assert (He : exists endpoint, messages_endpoint config = inr endpoint).
    { unfold messages_endpoint. rewrite prop_secret_of by assumption.
      cbn [and_then]. rewrite ToString_plain by assumption.
      eexists; reflexivity. }
    destruct He as [endpoint He].
    unfold send_message, Part000.send_message.
    rewrite Ha, He, !bind_lift_inr.
    unfold Part000.twilioRequest.
    rewrite credentials_missing_falsy, bind_lift_inr by assumption.
    reflexivity. }
  split; [exact Hrun|]. now rewrite Hrun.
Qed.

(** X6.  [server.ts] does not look at the configuration before using it.
    Without a configuration object the tool reports the [TypeError] of
    reading [accountSid] and sends nothing; with an object that has no
    [accountSid] it sends the request to the account [undefined]. *)
Theorem X6_server_ts_uses_the_configuration_unchecked
    (fetch : request -> exn + response) (params : list (string * value)) :
  (forall config,
     config = VNull \/ config = VUndefined ->
     send_message server_ts fetch config params
     = ([], error_result (JsError (TypeError_read config "accountSid"))))
  /\ (forall props,
        has_own "accountSid" props = false ->
        plain (lookup "apiKey" props) = true ->
        plain (lookup "apiSecret" props) = true ->
        plain_body params = true ->
        fst (send_message server_ts fetch (VObj props) params)
        = [ built_request server_ts "/Accounts/undefined/Messages.json" POST
              (token_of (VObj props)) (flat_map entry_fields params) ]).
Proof.
  split.
  - intros config [-> | ->]; reflexivity.
  - intros props Haccount Hkey Hsecret Hbody.
    unfold send_message, ServerTs.send_message. rewrite fst_handle.
    assert (Hendpoint : messages_endpoint (VObj props)
                        = inr "/Accounts/undefined/Messages.json").
    { unfold messages_endpoint, prop.
      now rewrite (has_own_lookup _ _ Haccount). }
    assert (Htoken : authToken (VObj props) = inr (token_of (VObj props))).
    { unfold token_of, authToken, prop. cbn [and_then].
      now rewrite !ToString_plain by assumption. }
    rewrite Hendpoint, bind_lift_inr.
    rewrite fst_bind_silent by apply success_result_silent.
    apply (ServerTs_issues_request fetch (VObj props) _ POST params
             (token_of (VObj props)) (flat_map entry_fields params) Htoken).
    now apply formData_plain.
Qed.

End Configuration.

(* ================================================================== *)
(** ** What a failed response is reported as *)

Section Failed_response_texts.
Context `{Runtime}.

(** [String] throws on every value that is not plain. *)
Lemma ToString_not_plain :
  forall v, plain v = false -> ToString v = inl (JsError TypeError_convert).
Proof.
  fix IH 1.
  intros [ | | [|] | n | s | elems | props]; simpl; intros Hp;
    try discriminate.
  - assert (Hparts :
              (fix join_parts (l : list value) : exn + list string :=
                 match l with
                 | [] => inr []
                 | e :: r =>
                     s <-- match e with
                           | VUndefined | VNull => inr ""
                           | _ => ToString e
                           end ;;
                     ss <-- join_parts r ;;
                     inr (s :: ss)
                 end) elems = inl (JsError TypeError_convert)).
    { induction elems as [|e elems IHelems]; [discriminate|].
      simpl in Hp. destruct (plain e) eqn:He.
      - simpl in Hp. rewrite (IHelems Hp).
        destruct (plain_ToString e He) as [s Hs].
        destruct e; simpl in *; try rewrite Hs; reflexivity.
      - rewrite (IH e He). destruct e; simpl in *; try discriminate;
          reflexivity. }
    now rewrite Hparts.
  - destruct (has_own "toString" props); [reflexivity|discriminate].
Qed.

(** The status line that [server.ts] falls back to. *)
Lemma ServerTs_failed (fetch : request -> exn + response) (config : value)
    (endpoint : string) (method : http_method)
    (params : list (string * value)) (resp : response) :
  config_complete config = true ->
  plain_body params = true ->
  fetch (issued_request server_ts config endpoint method params) = inr resp ->
  ok resp = false ->
  snd (ServerTs.twilioRequest fetch config endpoint method params)
  = (errorData <-- inr match parse_json (text resp) with
                       | inr v => v
                       | inl _ => VObj []
                       end ;;
     message <-- prop errorData "message" ;;
     message <-- (if truthy message then ToString message
                  else inr ("Twilio API error: "
                            ++ Number_toString (status resp)
                            ++ " " ++ statusText resp)) ;;
     inl (JsError message)).
Proof.
  intros Hc Hb Hf Hok.
  rewrite ServerTs_twilioRequest_run, bind_call, Hf by assumption.
  rewrite Hok. cbn [negb snd and_then].
  destruct (prop _ "message") as [e|message]; [reflexivity|].
  rewrite bind_lift_inr. cbn [and_then].
  destruct (truthy message); [|reflexivity].
  destruct (ToString message); reflexivity.
Qed.

(** X7.  What [server.ts] throws for a failed response, after its one
    request.  A body that does not parse, or that parses to anything but
    [null] without a truthy [message], gives the status line
    [Twilio API error: <status> <statusText>].  An object with a truthy
    [message] gives that message alone.  The body [null] gives the
    [TypeError] of reading [message], which the [catch] on
    [response.json()] does not cover. *)
Theorem X7_server_ts_failed_response_text
    (fetch : request -> exn + response) (config : value) (endpoint : string)
    (method : http_method) (params : list (string * value))
    (resp : response) :
  config_complete config = true ->
  plain_body params = true ->
  fetch (issued_request server_ts config endpoint method params) = inr resp ->
  ok resp = false ->
  (forall msg,
     JSON_parse (text resp) = inl msg ->
     snd (ServerTs.twilioRequest fetch config endpoint method params)
     = inl (JsError ("Twilio API error: " ++ Number_toString (status resp)
                     ++ " " ++ statusText resp)))
  /\ (forall v,
        JSON_parse (text resp) = inr v ->
        v <> VNull -> v <> VUndefined ->
        truthy (member v "message") = false ->
        snd (ServerTs.twilioRequest fetch config endpoint method params)
        = inl (JsError ("Twilio API error: " ++ Number_toString (status resp)
                        ++ " " ++ statusText resp)))
  /\ (forall props,
        JSON_parse (text resp) = inr (VObj props) ->
        truthy (lookup "message" props) = true ->
        plain (lookup "message" props) = true ->
        snd (ServerTs.twilioRequest fetch config endpoint method params)
        = inl (JsError (string_of (lookup "message" props))))
  /\ (JSON_parse (text resp) = inr VNull ->
      snd (ServerTs.twilioRequest fetch config endpoint method params)
      = inl (JsError (TypeError_read VNull "message"))).
Proof.
  intros Hc Hb Hf Hok.
  pose proof (ServerTs_failed fetch config endpoint method params resp
                Hc Hb Hf Hok) as Hrun.
  unfold parse_json in Hrun. repeat split.
  - intros msg Hparse. rewrite Hrun, Hparse. reflexivity.
  - intros v Hparse Hnull Hundef Hfalsy. rewrite Hrun, Hparse.
    destruct v; try contradiction; simpl in *; try reflexivity.
    now rewrite Hfalsy.
  - intros props Hparse Ht Hp. rewrite Hrun, Hparse.
    cbn [and_then prop]. rewrite Ht, ToString_plain by assumption.
    reflexivity.
  - intros Hparse. rewrite Hrun, Hparse. reflexivity.
Qed.

(** X8.  In [part_000] the text of a failed response is thrown as it came
    in every case where the composed message cannot be made: the body
    parses to [null], to a primitive or an array, to an object without a
    truthy [message], or to an object one of whose [code], [message] and
    [more_info] does not convert to a string. *)
Theorem X8_part_000_falls_back_to_the_raw_text
    (fetch : request -> exn + response) (config : value) (endpoint : string)
    (method : http_method) (params : list (string * value))
    (resp : response) (v : value) :
  config_complete config = true ->
  plain_body params = true ->
  fetch (issued_request part_000 config endpoint method params) = inr resp ->
  ok resp = false ->
  JSON_parse (text resp) = inr v ->
  (forall props,
     v = VObj props ->
     truthy (lookup "message" props) = false
     \/ plain (lookup "code" props) = false
     \/ plain (lookup "message" props) = false
     \/ plain (lookup "more_info" props) = false) ->
  Part000.twilioRequest fetch config endpoint method params
  = ([issued_request part_000 config endpoint method params],
     inl (JsError (text resp))).
Proof.
  intros Hc Hb Hf Hok Hparse Hcases.
  change (Part000.twilioRequest fetch config endpoint method params)
    with (twilioRequest part_000 fetch config endpoint method params).
  rewrite twilioRequest_run, Hf by assumption. f_equal.
  unfold twilioRequest. rewrite Part000_failed by assumption.
  do 2 f_equal. unfold Part000.errorMessage, parse_json.
  rewrite Hparse. cbn [and_then].
  destruct v as [ | | b | n | s | elems | props]; try reflexivity.
  cbn [prop and_then].
  destruct (truthy (lookup "message" props)) eqn:Ht; [|reflexivity].
  destruct (Hcases props eq_refl) as [Hx | [Hx | [Hx | Hx]]].
  - congruence.
  - now rewrite (ToString_not_plain _ Hx).
  - destruct (ToString (lookup "code" props)); [reflexivity|].
    cbn [and_then]. now rewrite (ToString_not_plain _ Hx).
  - destruct (ToString (lookup "code" props)); [reflexivity|].
    cbn [and_then].
    destruct (ToString (lookup "message" props)); [reflexivity|].
    cbn [and_then]. now rewrite (ToString_not_plain _ Hx).
Qed.

End Failed_response_texts.

(* ================================================================== *)
(** ** What a successful response is reported as *)

Section Successful_response_texts.
Context `{Runtime}.

Lemma prop_member (v : value) (k : string) :
  v <> VNull -> v <> VUndefined -> prop v k = inr (member v k).
Proof. destruct v; simpl; intros Hn Hu; try contradiction; reflexivity. Qed.

(** X9.  A successful response whose body parses to a value with none of
    the properties the handler reads (a number, a string, an array, the
    object [{}]) is reported as a success, each field reading
    [undefined]. *)
Theorem X9_missing_fields_read_undefined
    (which : variant) (fetch : request -> exn + response) (config : value)
    (params : list (string * value)) (resp : response) (v : value) :
  config_complete config = true ->
  plain_body params = true ->
  fetch (issued_request which config (endpoint_of config) POST params)
  = inr resp ->
  ok resp = true ->
  JSON_parse (text resp) = inr v ->
  v <> VNull -> v <> VUndefined ->
  (forall k, In k summary_fields -> member v k = VUndefined) ->
  send_message which fetch config params
  = ([issued_request which config (endpoint_of config) POST params],
     text_result
       [ "Message sent successfully!"; "SID: undefined";
         "Status: undefined"; "To: undefined"; "From: undefined" ]).
Proof.
  intros Hc Hb Hf Hok Hparse Hnull Hundef Habsent.
  rewrite (send_message_parsed which fetch config params resp v)
    by assumption.
  f_equal. unfold outcome_result, responseText.
  rewrite !prop_member by assumption.
  rewrite !Habsent by (simpl; tauto). reflexivity.
Qed.

(** X10.  A successful response whose body is [null] is reported as an
    error: reading [sid] of [null] throws inside the [try], after the one
    request. *)
Theorem X10_null_body_is_an_error
    (which : variant) (fetch : request -> exn + response) (config : value)
    (params : list (string * value)) (resp : response) :
  config_complete config = true ->
  plain_body params = true ->
  fetch (issued_request which config (endpoint_of config) POST params)
  = inr resp ->
  ok resp = true ->
  JSON_parse (text resp) = inr VNull ->
  send_message which fetch config params
  = ([issued_request which config (endpoint_of config) POST params],
     error_result (JsError (TypeError_read VNull "sid"))).
Proof.
  intros Hc Hb Hf Hok Hparse.
  now rewrite (send_message_parsed which fetch config params resp VNull).
Qed.

(** X11.  The summary reads [sid], [status], [to], [from] and
    [error_message] and nothing else: two resources that agree on these
    five give the same lines and the same result, whatever their other
    properties ([body], [error_code], [price], ...). *)
Theorem X11_summary_reads_five_fields
    (props1 props2 : list (string * value)) :
  (forall k, In k summary_fields -> lookup k props1 = lookup k props2) ->
  responseText (VObj props1) = responseText (VObj props2)
  /\ success_result (VObj props1) = success_result (VObj props2).
Proof.
  intros Hsame.
  assert (Hlines : responseText (VObj props1) = responseText (VObj props2)).
  { unfold responseText, prop.
    now rewrite !Hsame by (simpl; tauto). }
  split; [exact Hlines|]. unfold success_result. now rewrite Hlines.
Qed.

End Successful_response_texts.

(* ================================================================== *)
(** ** More on the serialization of the parameters *)

Section Serialization.
Context `{Runtime}.

Lemma foldM_app {E A B : Type} (f : B -> A -> E + B) (l1 l2 : list A) (b : B) :
  foldM f (l1 ++ l2)%list b = (b' <-- foldM f l1 b ;; foldM f l2 b').
Proof.
  revert b. induction l1 as [|a l1 IH]; simpl; intros b; [reflexivity|].
  destruct (f b a) as [e|b']; simpl; [reflexivity|apply IH].
Qed.

(** A loop that only appends does the same from any starting list. *)
Lemma foldM_shift {A X : Type} (step : list X -> A -> exn + list X) :
  (forall acc a, step acc a = (xs <-- step [] a ;; inr (acc ++ xs)%list)) ->
  forall l acc,
    foldM step l acc = (xs <-- foldM step l [] ;; inr (acc ++ xs)%list).
Proof.
  intros Hstep. induction l as [|a l IH]; simpl; intros acc.
  - now rewrite app_nil_r.
  - rewrite (Hstep acc a). destruct (step [] a) as [e|xs]; simpl;
      [reflexivity|].
    rewrite (IH (acc ++ xs)%list), (IH xs).
    destruct (foldM step l []) as [e|ys]; simpl; [reflexivity|].
    now rewrite app_assoc.
Qed.

Lemma append_entry_shift (acc : URLSearchParams) (entry : string * value) :
  append_entry acc entry
  = (fields <-- append_entry [] entry ;; inr (acc ++ fields)%list).
Proof.
  destruct entry as [key val].
  destruct val as [ | | b | n | s | elems | props]; unfold append_entry.
  - cbn [and_then]. now rewrite app_nil_r.
  - cbn [and_then]. now rewrite app_nil_r.
  - destruct (ToString (VBool b)); reflexivity.
  - destruct (ToString (VNum n)); reflexivity.
  - destruct (ToString (VStr s)); reflexivity.
  - apply (foldM_shift
             (fun fd v => s <-- ToString v ;; inr (append fd key s))).
    intros acc' v. destruct (ToString v); reflexivity.
  - destruct (ToString (VObj props)); reflexivity.
Qed.

Lemma append_assoc (a b c : string) : (a ++ b) ++ c = a ++ (b ++ c).
Proof. induction a as [|x a IH]; simpl; [reflexivity|now rewrite IH]. Qed.

Lemma concat_app (sep : string) (l1 l2 : list string) :
  l1 <> [] -> l2 <> [] ->
  String.concat sep (l1 ++ l2)%list
  = String.concat sep l1 ++ sep ++ String.concat sep l2.
Proof.
  intros H1 H2. induction l1 as [|a l1 IH]; [congruence|].
  destruct l1 as [|b l1].
  - destruct l2; [congruence|reflexivity].
  - change (String.concat sep ((a :: b :: l1) ++ l2)%list)
      with (a ++ sep ++ String.concat sep ((b :: l1) ++ l2)%list).
    rewrite IH by discriminate.
    change (String.concat sep (a :: b :: l1))
      with (a ++ sep ++ String.concat sep (b :: l1)).
    now rewrite !append_assoc.
Qed.

(** X12.  Serializing is compositional: the pairs of two mappings put one
    after the other are the pairs of the first followed by those of the
    second, so a further parameter adds its fields at the end and leaves
    the others as they were; the two bodies are joined by [&]. *)
Theorem X12_parameters_are_serialized_in_order
    (params1 params2 : list (string * value)) (fd1 fd2 : URLSearchParams) :
  formData params1 = inr fd1 ->
  formData params2 = inr fd2 ->
  formData (params1 ++ params2)%list = inr (fd1 ++ fd2)%list
  /\ body_fields (toString (fd1 ++ fd2)%list)
     = (body_fields (toString fd1) ++ body_fields (toString fd2))%list
  /\ (fd1 <> [] -> fd2 <> [] ->
      toString (fd1 ++ fd2)%list = toString fd1 ++ "&" ++ toString fd2).
Proof.
  unfold formData. intros H1 H2. repeat split.
  - rewrite foldM_app, H1. cbn [and_then].
    rewrite (foldM_shift append_entry append_entry_shift).
    unfold URLSearchParams in *. now rewrite H2.
  - now rewrite !body_fields_toString, map_app.
  - intros Hne1 Hne2. unfold toString. rewrite map_app.
    apply concat_app; now destruct fd1, fd2.
Qed.

(** X13.  A value that is neither [null], [undefined] nor a list gives
    exactly one field under its key, [key=String(value)] encoded. *)
Theorem X13_scalar_field_once
    (params : list (string * value)) (key : string) (v : value) :
  plain_body params = true ->
  NoDup (map fst params) ->
  In (key, v) params ->
  match v with VUndefined | VNull | VArr _ => False | _ => True end ->
  exists fd,
    formData params = inr fd
    /\ getAll key fd = [string_of v]
    /\ fields_of_key key (toString fd)
       = [form_encode key ++ "=" ++ form_encode (string_of v)].
Proof.
  intros Hb Hnd Hin Hscalar. exists (flat_map entry_fields params).
  assert (Hfields :
            filter (fun p => String.eqb (fst p) key)
              (flat_map entry_fields params)
            = [(key, string_of v)]).
  { rewrite (filter_fields_entry key v params Hnd Hin).
    destruct v; try contradiction; reflexivity. }
  repeat split.
  - now apply formData_plain.
  - unfold getAll. now rewrite Hfields.
  - now rewrite fields_of_key_toString, Hfields.
Qed.

Lemma foldM_elements_not_plain (key : string) (elems : list value)
    (acc : URLSearchParams) :
  forallb plain elems = false ->
  foldM (fun fd v => s <-- ToString v ;; inr (append fd key s)) elems acc
  = inl (JsError TypeError_convert).
Proof.
  revert acc. induction elems as [|e elems IH]; simpl; intros acc Hp;
    [discriminate|].
  destruct (plain e) eqn:He.
  - rewrite (ToString_plain e He). simpl. now apply IH.
  - now rewrite (ToString_not_plain e He).
Qed.

Lemma append_entry_not_plain (acc : URLSearchParams)
    (entry : string * value) :
  plain (snd entry) = false ->
  append_entry acc entry = inl (JsError TypeError_convert).
Proof.
  destruct entry as [key val]. simpl. intros Hp.
  destruct val; try discriminate.
  - now apply foldM_elements_not_plain.
  - unfold append_entry. now rewrite (ToString_not_plain _ Hp).
Qed.

(** The loop throws as soon as a value does not convert. *)
Lemma formData_not_plain (params : list (string * value)) :
  plain_body params = false ->
  formData params = inl (JsError TypeError_convert).
Proof.
  unfold formData. generalize (@nil (string * string)).
  induction params as [|entry params IH]; simpl; intros acc Hp;
    [discriminate|].
  destruct (plain (snd entry)) eqn:He.
  - rewrite (append_entry_plain acc entry He). simpl. now apply IH.
  - now rewrite (append_entry_not_plain acc entry He).
Qed.

(** X14.  When a value of the parameters does not convert to a string (an
    object with an own [toString], alone or in a list), nothing is sent:
    [twilioRequest] throws the [TypeError] of the conversion before the
    call of [fetch], and the tool reports it. *)
Theorem X14_unconvertible_value_sends_nothing
    (which : variant) (fetch : request -> exn + response) (config : value)
    (endpoint : string) (method : http_method)
    (params : list (string * value)) :
  config_complete config = true ->
  plain_body params = false ->
  formData params = inl (JsError TypeError_convert)
  /\ twilioRequest which fetch config endpoint method params
     = ([], inl (JsError TypeError_convert))
  /\ send_message which fetch config params
     = ([], error_result (JsError TypeError_convert)).
Proof.
  intros Hc Hb.
  pose proof (formData_not_plain params Hb) as Hfd.
  destruct (config_complete_facts config Hc) as (He & Ht & Hm & Ha).
  assert (Hrun : forall endpoint' method',
             twilioRequest which fetch config endpoint' method' params
             = ([], inl (JsError TypeError_convert))).
  { intros endpoint' method'.
    destruct which; unfold twilioRequest, ServerTs.twilioRequest,
      Part000.twilioRequest.
    - now rewrite Ht, Hfd, bind_lift_inr.
    - now rewrite Hm, Ht, Hfd, !bind_lift_inr. }
  split; [exact Hfd|]. split; [apply Hrun|].
  rewrite send_message_run, Hrun by assumption. reflexivity.
Qed.

(** X15.  With the method [GET] the parameters are not sent at all: the
    request has no body, its URL is the base URL and the endpoint with no
    query, and it is the same request whatever the parameters. *)
Theorem X15_get_drops_the_parameters
    (which : variant) (fetch : request -> exn + response) (config : value)
    (endpoint : string) (params1 params2 : list (string * value)) :
  config_complete config = true ->
  plain_body params1 = true ->
  plain_body params2 = true ->
  fst (twilioRequest which fetch config endpoint GET params1)
  = fst (twilioRequest which fetch config endpoint GET params2)
  /\ exists req,
      fst (twilioRequest which fetch config endpoint GET params1) = [req]
      /\ body req = None
      /\ url req = API_BASE_URL ++ endpoint.
Proof.
  intros Hc Hb1 Hb2. rewrite !twilioRequest_trace by assumption.
  split; [reflexivity|].
  eexists. split; [reflexivity|]. split; reflexivity.
Qed.

End Serialization.

(* ================================================================== *)
(** ** The identifiers of the schema *)

Lemma is_hex_digit_unreserved (c : ascii) :
  is_hex_digit c = true -> form_encode_byte c = String c EmptyString.
Proof.
  destruct c as [[] [] [] [] [] [] [] []]; intros Hc;
    try discriminate Hc; reflexivity.
Qed.

Lemma all_hex_digits_encode (s : string) :
  all_hex_digits s = true -> form_encode s = s.
Proof.
  induction s as [|c s IH]; simpl; intros Hs; [reflexivity|].
  apply andb_true_iff in Hs as [Hc Hs].
  now rewrite (is_hex_digit_unreserved c Hc), (IH Hs).
Qed.

Lemma sid_pattern_shape (prefix s : string) :
  sid_pattern prefix s = true ->
  exists digits,
    s = prefix ++ digits
    /\ String.length digits = 32
    /\ all_hex_digits digits = true.
Proof.
  unfold sid_pattern.
  destruct (after_prefix prefix s) as [digits|] eqn:Hafter; [|discriminate].
  intros Hd. apply andb_true_iff in Hd as [Hlen Hhex].
  exists digits. split; [|split; [now apply Nat.eqb_eq|assumption]].
  revert s Hafter. induction prefix as [|a prefix IH]; simpl; intros s Hafter.
  - now inversion Hafter.
  - destruct s as [|b s]; [discriminate|].
    destruct (Ascii.eqb_spec a b) as [->|]; [|discriminate].
    now rewrite (IH s Hafter).
Qed.

(** X16.  An identifier that the schema accepts ([MG] or [HX] and
    thirty-two hexadecimal digits) has thirty-four characters and goes
    into the body as it is: the serializer encodes none of them. *)
Theorem X16_accepted_identifiers_are_sent_verbatim (s : string) :
  MessagingServiceSid_pattern s = true \/ ContentSid_pattern s = true ->
  String.length s = 34
  /\ form_encode s = s
  /\ form_field ("MessagingServiceSid", s) = "MessagingServiceSid=" ++ s
  /\ form_field ("ContentSid", s) = "ContentSid=" ++ s.
Proof.
  intros Hs.
  assert (Hshape : exists prefix digits,
             (prefix = "MG" \/ prefix = "HX")
             /\ s = prefix ++ digits
             /\ String.length digits = 32
             /\ all_hex_digits digits = true).
  { destruct Hs as [Hs | Hs];
      apply sid_pattern_shape in Hs as [digits Hd];
      eexists _, digits; (split; [|exact Hd]); auto. }
  destruct Hshape as [prefix [digits [Hprefix [-> [Hlen Hhex]]]]].
  assert (Henc : form_encode (prefix ++ digits) = prefix ++ digits).
  { destruct Hprefix as [-> | ->]; simpl;
      now rewrite (all_hex_digits_encode digits Hhex). }
  repeat split.
  - destruct Hprefix as [-> | ->]; simpl; now rewrite Hlen.
  - exact Henc.
  - unfold form_field. cbn [fst snd]. now rewrite Henc.
  - unfold form_field. cbn [fst snd]. now rewrite Henc.
Qed.

(* ================================================================== *)
(** ** The token of the credentials *)

Lemma base64_index_char (n : N) : base64_index (base64_char n) = (n mod 64)%N.
Proof.
  assert (Hall : forallb (fun i => N.eqb (base64_index (base64_char (N.of_nat i))) (N.of_nat i))
                   (seq 0 64) = true) by (vm_compute; reflexivity).
  assert (Hlt : (n mod 64 < 64)%N) by (apply N.mod_lt; discriminate).
  assert (Hchar : base64_char n = base64_char (n mod 64)).
  { unfold base64_char. now rewrite N.Div0.mod_mod. }
  rewrite Hchar. remember (n mod 64)%N as k eqn:Hk. clear Hk Hchar.
  rewrite forallb_forall in Hall.
  specialize (Hall (N.to_nat k)).
  rewrite N2Nat.id in Hall. apply N.eqb_eq, Hall.
  apply in_seq. lia.
Qed.

Lemma base64_char_not_pad (n : N) : Ascii.eqb (base64_char n) "=" = false.
Proof.
  destruct (Ascii.eqb_spec (base64_char n) "=") as [Heq|]; [|reflexivity].
  pose proof (base64_index_char n) as Hi. rewrite Heq in Hi.
  assert (Hlt : (n mod 64 < 64)%N) by (apply N.mod_lt; discriminate).
  remember (n mod 64)%N as k eqn:Hk. clear Hk. vm_compute in Hi. lia.
Qed.

Ltac push_N :=
  repeat (rewrite N2Z.inj_add || rewrite N2Z.inj_mul || rewrite N2Z.inj_div
          || rewrite N2Z.inj_mod).

Lemma group3 (a b c : N) :
  (a < 256 -> b < 256 -> c < 256 ->
   ((((a * 65536 + b * 256 + c) / 262144) mod 64) * 262144
    + (((a * 65536 + b * 256 + c) / 4096) mod 64) * 4096
    + (((a * 65536 + b * 256 + c) / 64) mod 64) * 64
    + (a * 65536 + b * 256 + c) mod 64
    = a * 65536 + b * 256 + c)
   /\ (a * 65536 + b * 256 + c) / 65536 = a
   /\ ((a * 65536 + b * 256 + c) / 256) mod 256 = b
   /\ (a * 65536 + b * 256 + c) mod 256 = c)%N.
Proof.
  intros Ha Hb Hc.
  assert (0 <= Z.of_N a < 256 /\ 0 <= Z.of_N b < 256
          /\ 0 <= Z.of_N c < 256)%Z as (Ha' & Hb' & Hc') by lia.
  repeat split; apply N2Z.inj; push_N; simpl Z.of_N;
    Z.div_mod_to_equations; lia.
Qed.

Ltac by_Z := apply N2Z.inj; push_N; simpl Z.of_N; Z.div_mod_to_equations; lia.

Lemma group2 (a b : N) :
  (a < 256 -> b < 256 ->
   (((a * 65536 + b * 256) / 262144) mod 64) * 262144
   + (((a * 65536 + b * 256) / 4096) mod 64) * 4096
   + (((a * 65536 + b * 256) / 64) mod 64) * 64
   = a * 65536 + b * 256
   /\ (a * 65536 + b * 256) / 65536 = a
   /\ ((a * 65536 + b * 256) / 256) mod 256 = b)%N.
Proof.
  intros Ha Hb.
  assert (0 <= Z.of_N a < 256 /\ 0 <= Z.of_N b < 256)%Z as (Ha' & Hb') by lia.
  repeat split; by_Z.
Qed.

Lemma group1 (a : N) :
  (a < 256 ->
   (((a * 65536 / 262144) mod 64) * 262144
    + ((a * 65536 / 4096) mod 64) * 4096) / 65536 = a)%N.
Proof.
  intros Ha. assert (0 <= Z.of_N a < 256)%Z as Ha' by lia. by_Z.
Qed.

Lemma byte_bound (c : ascii) : (N_of_ascii c < 256)%N.
Proof. apply N_ascii_bounded. Qed.

Lemma base64_decode_encode (fuel : nat) :
  forall s, String.length s <= fuel -> base64_decode fuel (base64 s) = s.
Proof.
  induction fuel as [|fuel IH]; intros s Hlen.
  - destruct s; [reflexivity|simpl in Hlen; lia].
  - destruct s as [|a [|b [|c r]]]; [reflexivity| | |].
    + cbn [base64 base64_decode]. rewrite Ascii.eqb_refl, !base64_index_char.
      now rewrite (group1 _ (byte_bound a)), ascii_N_embedding.
    + cbn [base64 base64_decode].
      rewrite base64_char_not_pad, Ascii.eqb_refl, !base64_index_char.
      destruct (group2 _ _ (byte_bound a) (byte_bound b)) as (-> & -> & ->).
      now rewrite !ascii_N_embedding.
    + cbn [base64 base64_decode].
      rewrite !base64_char_not_pad, !base64_index_char.
      destruct (group3 _ _ _ (byte_bound a) (byte_bound b) (byte_bound c))
        as (-> & -> & -> & ->).
      rewrite !ascii_N_embedding, IH; [reflexivity|simpl in Hlen; lia].
Qed.

Lemma base64_inj (a b : string) : base64 a = base64 b -> a = b.
Proof.
  intros Heq.
  transitivity (base64_decode (String.length a + String.length b) (base64 a)).
  - symmetry. apply base64_decode_encode. lia.
  - rewrite Heq. apply base64_decode_encode. lia.
Qed.

Lemma colon_split (k1 s1 k2 s2 : string) :
  occurs ":" k1 = false -> occurs ":" k2 = false ->
  k1 ++ ":" ++ s1 = k2 ++ ":" ++ s2 -> k1 = k2 /\ s1 = s2.
Proof.
  revert k2. induction k1 as [|c k1 IH]; intros [|d k2]; simpl;
    intros H1 H2 Heq.
  - inversion Heq; auto.
  - inversion Heq; subst. now rewrite Ascii.eqb_refl in H2.
  - inversion Heq; subst. now rewrite Ascii.eqb_refl in H1.
  - apply orb_false_iff in H1 as [_ H1]. apply orb_false_iff in H2 as [_ H2].
    inversion Heq; subst. destruct (IH k2 H1 H2) as [-> ->]; auto.
Qed.

(** X17.  The token of the [Authorization] header determines the
    credentials: two configurations whose keys and secrets are strings,
    the keys without a colon, have the same token only when they have the
    same key and the same secret. *)
Theorem X17_token_determines_the_credentials `{Runtime}
    (config1 config2 : value) (key1 secret1 key2 secret2 : string) :
  prop config1 "apiKey" = inr (VStr key1) ->
  prop config1 "apiSecret" = inr (VStr secret1) ->
  prop config2 "apiKey" = inr (VStr key2) ->
  prop config2 "apiSecret" = inr (VStr secret2) ->
  occurs ":" key1 = false ->
  occurs ":" key2 = false ->
  authToken config1 = authToken config2 ->
  key1 = key2 /\ secret1 = secret2.
Proof.
  intros Hk1 Hs1 Hk2 Hs2 Hc1 Hc2. unfold authToken.
  rewrite Hk1, Hs1, Hk2, Hs2. cbn [and_then ToString].
  intros Heq. inversion Heq as [Htoken].
  apply base64_inj in Htoken. now apply colon_split.
Qed.

(* ================================================================== *)
(** ** Where the two variants agree *)

(** X18.  With a complete configuration, the two variants give the same
    result whenever [fetch] rejects or answers with a successful
    response: the checks and the logging of [part_000] change nothing
    there.  (Their requests differ by the [Accept] header, and their
    results may differ on a failed response.) *)
Theorem X18_variants_agree_off_failed_responses `{Runtime}
    (fetch : request -> exn + response) (config : value)
    (params : list (string * value)) (answer : exn + response) :
  config_complete config = true ->
  plain_body params = true ->
  (forall req, fetch req = answer) ->
  (forall resp, answer = inr resp -> ok resp = true) ->
  snd (send_message server_ts fetch config params)
  = snd (send_message part_000 fetch config params).
Proof.
  intros Hc Hb Hf Hok.
  rewrite !send_message_run, !twilioRequest_run, !Hf by assumption.
  destruct answer as [e|resp]; [reflexivity|].
  cbn [snd]. rewrite !twilioRequest_ok by auto. reflexivity.
Qed.

(* ================================================================== *)
(** ** The two variants apart, on the sample inputs *)

Import Reference.

(** C1.  In [server.ts] nothing checks the credentials: with the empty
    string for key the request is issued all the same, its
    [Authorization] header built from [":secret"], where [part_000]
    throws the configuration error and issues nothing. *)
Theorem C1_server_ts_sends_empty_key
    (fetch : request -> exn + response) (endpoint : string) :
  blank (secret_of Sample.config_empty_key "apiKey") = true
  /\ fst (ServerTs.twilioRequest fetch Sample.config_empty_key endpoint POST [])
     = [ {| url := API_BASE_URL ++ endpoint;
            method := POST;
            headers :=
              [ ("Authorization", "Basic OnNlY3JldA==");
                ("Content-Type", "application/x-www-form-urlencoded") ];
            body := Some "" |} ]
  /\ Part000.twilioRequest fetch Sample.config_empty_key endpoint POST []
     = ([], inl Part000.missing_config).
Proof.
  split; [reflexivity|]. split.
  - apply (ServerTs_issues_request fetch Sample.config_empty_key endpoint POST
             [] "OnNlY3JldA==" []); reflexivity.
  - now apply Part000_rejects_blank_credentials.
Qed.

(** C5.  For the failed response whose body is the text
    [Internal Server Error], [server.ts] throws the status line and drops
    the text, where [part_000] throws the text as it came. *)
Theorem C5_server_ts_drops_the_raw_text :
  ok Sample.server_error = false
  /\ JSON_parse (text Sample.server_error) = inl syntax_error
  /\ Sample.transport server_ts Sample.server_error
     = inl (JsError "Twilio API error: 500 Internal Server Error")
  /\ Sample.transport part_000 Sample.server_error
     = inl (JsError "Internal Server Error")
  /\ result_text (Sample.outcome server_ts Sample.server_error)
     = "Error sending message: Twilio API error: 500 Internal Server Error".
Proof. repeat split; vm_compute; reflexivity. Qed.

(** For the error descriptor of the example, [server.ts] throws the
    [message] alone. *)
Lemma ServerTs_reports_message_only :
  Sample.transport server_ts Sample.invalid_to
  = inl (JsError "Invalid 'To' Phone Number").
Proof. vm_compute; reflexivity. Qed.

(** A descriptor whose [message] is present and empty: [part_000] throws
    the text of the body, not the composed message. *)
Lemma C4_counterexample_empty_message :
  ok Sample.empty_message = false
  /\ JSON_parse (text Sample.empty_message)
     = inr (VObj Sample.empty_message_props)
  /\ has_own "message" Sample.empty_message_props = true
  /\ Sample.transport part_000 Sample.empty_message
     = inl (JsError (text Sample.empty_message))
  /\ Sample.transport part_000 Sample.empty_message
     <> inl (JsError (composed_message Sample.empty_message_props)).
Proof.
  repeat split; try (vm_compute; reflexivity).
  vm_compute. discriminate.
Qed.

(** The summary of the example has five lines, not four, and the error
    line comes sixth, after [From]. *)
Lemma C6_counterexample_line_count :
  isError (Sample.outcome server_ts Sample.queued) = false
  /\ lines (result_text (Sample.outcome server_ts Sample.queued))
     = [ "Message sent successfully!"; "SID: SM1"; "Status: queued";
         "To: +15551234567"; "From: +15559876543" ]
  /\ length (lines (result_text (Sample.outcome server_ts Sample.queued)))
     <> 4
  /\ nth 4 (lines (result_text (Sample.outcome server_ts Sample.rejected))) ""
     = "From: +15559876543"
  /\ nth 4 (lines (result_text (Sample.outcome server_ts Sample.rejected))) ""
     <> "Error: Carrier rejected"
  /\ nth 5 (lines (result_text (Sample.outcome server_ts Sample.rejected))) ""
     = "Error: Carrier rejected".
Proof.
  repeat split; try (vm_compute; reflexivity); vm_compute; discriminate.
Qed.

(** A failed response whose body is a page of three lines: the text of the
    error result has three lines. *)
Lemma C8_counterexample_three_lines :
  isError (Sample.outcome part_000 Sample.bad_gateway) = true
  /\ lines (result_text (Sample.outcome part_000 Sample.bad_gateway))
     = [ "Error sending message: <html>"; "<body>Bad Gateway</body>";
         "</html>" ]
  /\ length (lines (result_text (Sample.outcome part_000 Sample.bad_gateway)))
     <> 1.
Proof.
  repeat split; try (vm_compute; reflexivity); vm_compute; discriminate.
Qed.

(* ================================================================== *)
(** ** The statements at the sample inputs *)

Lemma sample_keys_distinct : NoDup (map fst Sample.params).
Proof.
  repeat (constructor; [simpl; intuition discriminate|]). constructor.
Qed.

(** The two media URLs of the sample parameters give two fields. *)
Lemma C2_witness_media_urls :
  config_complete Sample.config = true
  /\ plain_body Sample.params = true
  /\ exists fd text,
      formData Sample.params = inr fd
      /\ fst (twilioRequest part_000 (Sample.answering Sample.queued)
                Sample.config Sample.endpoint POST Sample.params)
         = [issued_request part_000 Sample.config Sample.endpoint POST
              Sample.params]
      /\ body (issued_request part_000 Sample.config Sample.endpoint POST
                 Sample.params) = Some text
      /\ text = toString fd
      /\ getAll "MediaUrl" fd
         = map string_of [ VStr "https://a.example/1.png";
                           VStr "https://a.example/2.png" ]
      /\ fields_of_key "MediaUrl" text
         = map (fun v => form_field ("MediaUrl", string_of v))
             [ VStr "https://a.example/1.png"; VStr "https://a.example/2.png" ]
      /\ length (fields_of_key "MediaUrl" text) = 2.
Proof.
  split; [reflexivity|]. split; [reflexivity|].
  apply (C2_list_field_once_per_element part_000
           (Sample.answering Sample.queued) Sample.config Sample.endpoint
           Sample.params "MediaUrl"
           [ VStr "https://a.example/1.png"; VStr "https://a.example/2.png" ]).
  - reflexivity.
  - reflexivity.
  - exact sample_keys_distinct.
  - simpl. tauto.
Defined.

(** The undefined callback of the sample parameters gives no field. *)
Lemma C3_witness_status_callback :
  In ("StatusCallback", VUndefined) Sample.params
  /\ exists fd text,
      formData Sample.params = inr fd
      /\ fst (twilioRequest server_ts (Sample.answering Sample.queued)
                Sample.config Sample.endpoint POST Sample.params)
         = [issued_request server_ts Sample.config Sample.endpoint POST
              Sample.params]
      /\ body (issued_request server_ts Sample.config Sample.endpoint POST
                 Sample.params) = Some text
      /\ text = toString fd
      /\ getAll "StatusCallback" fd = []
      /\ fields_of_key "StatusCallback" text = [].
Proof.
  split; [simpl; tauto|].
  apply (C3_null_and_undefined_omitted server_ts
           (Sample.answering Sample.queued) Sample.config Sample.endpoint
           Sample.params "StatusCallback" VUndefined).
  - reflexivity.
  - reflexivity.
  - exact sample_keys_distinct.
  - simpl. tauto.
  - left. reflexivity.
Defined.

(** The sample parameters survive encoding and decoding. *)
Lemma C9_witness_sample_params :
  plain_body Sample.params = true
  /\ exists fd,
      formData Sample.params = inr fd
      /\ form_parse (toString fd) = fd
      /\ forall key elems,
           In (key, VArr elems) Sample.params ->
           getAll key (form_parse (toString fd)) = map string_of elems
           /\ forall strs, elems = map VStr strs ->
                           getAll key (form_parse (toString fd)) = strs.
Proof.
  split; [reflexivity|].
  apply (C9_encode_decode_keeps_lists Sample.params).
  - reflexivity.
  - exact sample_keys_distinct.
Defined.

(** The error descriptor of the example gives the composed message of the
    example. *)
Lemma C4_witness_invalid_to :
  ok Sample.invalid_to = false
  /\ JSON_parse (text Sample.invalid_to) = inr (VObj Sample.invalid_to_props)
  /\ Part000.twilioRequest (Sample.answering Sample.invalid_to) Sample.config
       Sample.endpoint POST Sample.params
     = ([issued_request part_000 Sample.config Sample.endpoint POST
           Sample.params],
        inl (JsError
               "Code 21211: Invalid 'To' Phone Number (More info: https://...)")).
Proof.
  split; [reflexivity|]. split; [vm_compute; reflexivity|].
  apply (C4_part_000_composes_error_message
           (Sample.answering Sample.invalid_to) Sample.config Sample.endpoint
           POST Sample.params Sample.invalid_to Sample.invalid_to_props);
    vm_compute; reflexivity.
Defined.

(** The example resources: five lines, and the error line sixth. *)
Lemma C6_witness_carrier_rejected :
  ok Sample.rejected = true
  /\ JSON_parse (text Sample.rejected) = inr (VObj Sample.rejected_props)
  /\ send_message server_ts (Sample.answering Sample.rejected) Sample.config
       Sample.params
     = ([issued_request server_ts Sample.config (endpoint_of Sample.config)
           POST Sample.params],
        text_result
          [ "Message sent successfully!"; "SID: SM1"; "Status: queued";
            "To: +15551234567"; "From: +15559876543";
            "Error: Carrier rejected" ]).
Proof.
  split; [reflexivity|]. split; [vm_compute; reflexivity|].
  apply (C6_summary_has_five_lines_error_is_sixth server_ts
           (Sample.answering Sample.rejected) Sample.config Sample.params
           Sample.rejected Sample.rejected_props);
    vm_compute; reflexivity.
Defined.

(** A successful response with the body [<html>] ends in the error
    result. *)
Lemma C7_witness_malformed :
  ok Sample.malformed = true
  /\ JSON_parse (text Sample.malformed) = inl syntax_error
  /\ isError (Sample.outcome part_000 Sample.malformed) = true.
Proof.
  split; [reflexivity|]. split; [vm_compute; reflexivity|].
  apply (C7_malformed_success_body_is_an_error part_000
           (Sample.answering Sample.malformed) Sample.config Sample.params
           Sample.malformed syntax_error).
  - intros req. reflexivity.
  - reflexivity.
  - vm_compute; reflexivity.
Defined.

(** A failed response ends in the error result of what [twilioRequest]
    throws. *)
Lemma C8_witness_server_error :
  messages_endpoint Sample.config = inr Sample.endpoint
  /\ Sample.transport part_000 Sample.server_error
     = inl (JsError "Internal Server Error")
  /\ Sample.outcome part_000 Sample.server_error
     = error_result (JsError "Internal Server Error").
Proof.
  split; [reflexivity|]. split; [vm_compute; reflexivity|].
  apply (proj1 (proj2 (C8_every_error_becomes_an_error_result part_000
                         (Sample.answering Sample.server_error) Sample.config
                         Sample.params)) Sample.endpoint).
  - reflexivity.
  - intros _. reflexivity.
  - vm_compute; reflexivity.
Defined.

(** The resource with an empty [error_message] has the five lines of the
    summary and no more. *)
Lemma C10_witness_empty_error_message :
  ok Sample.empty_error = true
  /\ JSON_parse (text Sample.empty_error) = inr (VObj Sample.empty_error_props)
  /\ lookup "error_message" Sample.empty_error_props = VStr ""
  /\ send_message part_000 (Sample.answering Sample.empty_error) Sample.config
       Sample.params
     = ([issued_request part_000 Sample.config (endpoint_of Sample.config)
           POST Sample.params],
        text_result
          [ "Message sent successfully!"; "SID: SM1"; "Status: queued";
            "To: +15551234567"; "From: +15559876543" ]).
Proof.
  assert (Hparse : JSON_parse (text Sample.empty_error)
                   = inr (VObj Sample.empty_error_props))
    by (vm_compute; reflexivity).
  split; [reflexivity|]. split; [exact Hparse|].
  split; [reflexivity|].
  destruct (C10_error_line_iff_nonempty_string part_000
              (Sample.answering Sample.empty_error) Sample.config
              Sample.params Sample.empty_error Sample.empty_error_props
              eq_refl eq_refl eq_refl eq_refl Hparse eq_refl
              (or_introl (ex_intro _ "" eq_refl))) as [Hblank _].
  destruct (Hblank eq_refl) as [_ [_ Hsend]]. exact Hsend.
Defined.

(* ================================================================== *)
(** ** The further statements at sample inputs *)

(** The failed response of the example ends in the error result. *)
Lemma X3_witness_invalid_to :
  ok Sample.invalid_to = false
  /\ isError (Sample.outcome server_ts Sample.invalid_to) = true.
Proof.
  split; [reflexivity|].
  exact (proj1 (proj2 (X3_failed_response_is_never_a_success server_ts
                         (Sample.answering Sample.invalid_to) Sample.config
                         Sample.params Sample.invalid_to
                         (fun _ => eq_refl) eq_refl))).
Defined.

(** A [fetch] that rejects with [fetch failed]. *)
Lemma X4_witness_fetch_failed :
  result_text
    (snd (send_message part_000 (Edge.rejecting (JsError "fetch failed"))
            Sample.config Sample.params))
  = "Error sending message: fetch failed".
Proof.
  exact (proj2 (proj2 (X4_rejection_is_reported_unchanged part_000
                         (Edge.rejecting (JsError "fetch failed"))
                         Sample.config Sample.params (JsError "fetch failed")
                         eq_refl eq_refl eq_refl))).
Defined.

(** The configuration whose key is empty. *)
Lemma X5_witness_empty_key :
  truthy (secret_of Sample.config_empty_key "apiKey") = false
  /\ send_message part_000 (Sample.answering Sample.queued)
       Sample.config_empty_key Sample.params
     = ([], error_result Part000.missing_config).
Proof.
  split; [reflexivity|].
  exact (proj1 (X5_part_000_incomplete_config_sends_nothing
                  (Sample.answering Sample.queued) Sample.config_empty_key
                  Sample.params
                  (or_intror (or_intror (conj eq_refl (or_introl eq_refl)))))).
Defined.

(** The configuration without account identifier. *)
Lemma X6_witness_without_account :
  has_own "accountSid"
    [ ("apiKey", VStr "SK1"); ("apiSecret", VStr "secret") ] = false
  /\ fst (send_message server_ts (Sample.answering Sample.queued)
            Edge.config_without_account Sample.params)
     = [ built_request server_ts "/Accounts/undefined/Messages.json" POST
           (token_of Edge.config_without_account)
           (flat_map entry_fields Sample.params) ].
Proof.
  split; [reflexivity|].
  exact (proj2 (X6_server_ts_uses_the_configuration_unchecked
                  (Sample.answering Sample.queued) Sample.params)
           [ ("apiKey", VStr "SK1"); ("apiSecret", VStr "secret") ]
           eq_refl eq_refl eq_refl eq_refl).
Defined.

(** The failed response whose body is no JSON gives the status line. *)
Lemma X7_witness_server_error :
  ok Sample.server_error = false
  /\ snd (ServerTs.twilioRequest (Sample.answering Sample.server_error)
            Sample.config Sample.endpoint POST Sample.params)
     = inl (JsError "Twilio API error: 500 Internal Server Error").
Proof.
  assert (Hparse : JSON_parse (text Sample.server_error) = inl syntax_error)
    by (vm_compute; reflexivity).
  split; [reflexivity|].
  exact (proj1 (X7_server_ts_failed_response_text
                  (Sample.answering Sample.server_error) Sample.config
                  Sample.endpoint POST Sample.params Sample.server_error
                  eq_refl eq_refl eq_refl eq_refl) syntax_error Hparse).
Defined.

(** The failed response whose body is [null] is thrown as [null]. *)
Lemma X8_witness_failed_null :
  JSON_parse (text Edge.failed_null) = inr VNull
  /\ Part000.twilioRequest (Sample.answering Edge.failed_null) Sample.config
       Sample.endpoint POST Sample.params
     = ([issued_request part_000 Sample.config Sample.endpoint POST
           Sample.params],
        inl (JsError "null")).
Proof.
  assert (Hparse : JSON_parse (text Edge.failed_null) = inr VNull)
    by (vm_compute; reflexivity).
  split; [exact Hparse|].
  apply (X8_part_000_falls_back_to_the_raw_text
           (Sample.answering Edge.failed_null) Sample.config Sample.endpoint
           POST Sample.params Edge.failed_null VNull
           eq_refl eq_refl eq_refl eq_refl Hparse).
  intros props Heq. discriminate Heq.
Defined.

(** The successful response whose body is [[]]. *)
Lemma X9_witness_empty_array :
  JSON_parse (text Edge.empty_array) = inr (VArr [])
  /\ snd (send_message server_ts (Sample.answering Edge.empty_array)
            Sample.config Sample.params)
     = text_result
         [ "Message sent successfully!"; "SID: undefined";
           "Status: undefined"; "To: undefined"; "From: undefined" ].
Proof.
  assert (Hparse : JSON_parse (text Edge.empty_array) = inr (VArr []))
    by (vm_compute; reflexivity).
  split; [exact Hparse|].
  assert (Hnull : VArr [] <> VNull) by discriminate.
  assert (Hundef : VArr [] <> VUndefined) by discriminate.
  exact (f_equal snd
           (X9_missing_fields_read_undefined server_ts
              (Sample.answering Edge.empty_array) Sample.config Sample.params
              Edge.empty_array (VArr []) eq_refl eq_refl eq_refl eq_refl
              Hparse Hnull Hundef (fun k _ => eq_refl))).
Defined.

(** The successful response whose body is [null]. *)
Lemma X10_witness_null_body :
  JSON_parse (text Edge.null_body) = inr VNull
  /\ snd (send_message part_000 (Sample.answering Edge.null_body)
            Sample.config Sample.params)
     = error_result
         (JsError "Cannot read properties of null (reading 'sid')").
Proof.
  assert (Hparse : JSON_parse (text Edge.null_body) = inr VNull)
    by (vm_compute; reflexivity).
  split; [exact Hparse|].
  exact (f_equal snd
           (X10_null_body_is_an_error part_000
              (Sample.answering Edge.null_body) Sample.config Sample.params
              Edge.null_body eq_refl eq_refl eq_refl eq_refl Hparse)).
Defined.

(** An [error_code] and a [price] change nothing. *)
Lemma X11_witness_error_code :
  responseText (VObj Sample.queued_props)
  = responseText (VObj Edge.queued_with_code).
Proof.
  apply (X11_summary_reads_five_fields Sample.queued_props
           Edge.queued_with_code).
  intros k Hk. simpl in Hk.
  destruct Hk as [<- | [<- | [<- | [<- | [<- | []]]]]]; reflexivity.
Defined.

(** Two mappings of one parameter each. *)
Lemma X12_witness_two_parameters :
  formData ([ ("To", VStr "+15551234567") ]
            ++ [ ("Body", VStr "Hi there") ])%list
  = inr ([ ("To", "+15551234567") ] ++ [ ("Body", "Hi there") ])%list.
Proof.
  exact (proj1 (X12_parameters_are_serialized_in_order
                  [ ("To", VStr "+15551234567") ] [ ("Body", VStr "Hi there") ]
                  [ ("To", "+15551234567") ] [ ("Body", "Hi there") ]
                  eq_refl eq_refl)).
Defined.

(** The body text of the sample parameters gives one field. *)
Lemma X13_witness_body_text :
  In ("Body", VStr "Hi there & you") Sample.params
  /\ exists fd,
      formData Sample.params = inr fd
      /\ getAll "Body" fd = [string_of (VStr "Hi there & you")]
      /\ fields_of_key "Body" (toString fd)
         = [form_encode "Body" ++ "="
            ++ form_encode (string_of (VStr "Hi there & you"))].
Proof.
  assert (Hin : In ("Body", VStr "Hi there & you") Sample.params)
    by (simpl; tauto).
  split; [exact Hin|].
  exact (X13_scalar_field_once Sample.params "Body" (VStr "Hi there & you")
           eq_refl sample_keys_distinct Hin I).
Defined.

(** Parameters one of which does not convert. *)
Lemma X14_witness_unconvertible :
  plain_body Edge.unconvertible = false
  /\ send_message server_ts (Sample.answering Sample.queued) Sample.config
       Edge.unconvertible
     = ([], error_result
              (JsError "Cannot convert object to primitive value")).
Proof.
  split; [reflexivity|].
  exact (proj2 (proj2 (X14_unconvertible_value_sends_nothing server_ts
                         (Sample.answering Sample.queued) Sample.config
                         Sample.endpoint POST Edge.unconvertible
                         eq_refl eq_refl))).
Defined.

(** A [GET] with the sample parameters and one with none. *)
Lemma X15_witness_get :
  fst (twilioRequest part_000 (Sample.answering Sample.queued) Sample.config
         Sample.endpoint GET Sample.params)
  = fst (twilioRequest part_000 (Sample.answering Sample.queued) Sample.config
           Sample.endpoint GET []).
Proof.
  exact (proj1 (X15_get_drops_the_parameters part_000
                  (Sample.answering Sample.queued) Sample.config
                  Sample.endpoint Sample.params [] eq_refl eq_refl eq_refl)).
Defined.

(** A messaging service identifier. *)
Lemma X16_witness_sample_sid :
  MessagingServiceSid_pattern Edge.sample_sid = true
  /\ form_encode Edge.sample_sid = Edge.sample_sid.
Proof.
  split; [reflexivity|].
  exact (proj1 (proj2 (X16_accepted_identifiers_are_sent_verbatim
                         Edge.sample_sid (or_introl eq_refl)))).
Defined.

(** The sample configuration and one with the same secrets for another
    account. *)
Lemma X17_witness_sample_config :
  authToken Sample.config
  = authToken (VObj [ ("apiSecret", VStr "secret"); ("apiKey", VStr "SK1");
                      ("accountSid", VStr "AC2") ])
  /\ "SK1" = "SK1" /\ "secret" = "secret".
Proof.
  split; [reflexivity|].
  exact (X17_token_determines_the_credentials Sample.config
           (VObj [ ("apiSecret", VStr "secret"); ("apiKey", VStr "SK1");
                   ("accountSid", VStr "AC2") ])
           "SK1" "secret" "SK1" "secret"
           eq_refl eq_refl eq_refl eq_refl eq_refl eq_refl eq_refl).
Defined.

(** The two variants on the sample resource. *)
Lemma X18_witness_queued :
  Sample.outcome server_ts Sample.queued
  = Sample.outcome part_000 Sample.queued.
Proof.
  apply (X18_variants_agree_off_failed_responses
           (Sample.answering Sample.queued) Sample.config Sample.params
           (inr Sample.queued) eq_refl eq_refl (fun _ => eq_refl)).
  intros resp Heq. inversion Heq. reflexivity.
Defined.
